(** * Field decoders of [campsites_api/utils/process_campsites_data.py]

    A shallow embedding of the four decoders
    [process_campsites_phone_number], [process_campsites_dates],
    [process_campsites_country] and [process_campsites_amenities], and the
    properties of them that the specification states.

    Conventions.
    - A Python [str] is a [string]; a character is the code point
      [N_of_ascii c], so the strings covered are those whose code points are
      below 256.
    - [None] / a present value of an optional argument is [option].
    - A Python dict with string keys is a [gmap string pyval]; a key that the
      dict does not hold looks up to [None], a key bound to Python's [None]
      looks up to [Some PNone].
    - A call that can raise returns a [result]. *)

From Stdlib Require Import ZArith NArith Ascii.
From Stdlib Require Import Sorted.
From stdpp Require Import gmap strings list.

Local Open Scope Z_scope.

(** ** Python values and exceptions *)

Inductive pyval : Type :=
| PNone
| PBool (b : bool)
| PInt (z : Z)
| PStr (s : string).

Global Instance pyval_eq_dec : EqDecision pyval.
Proof. solve_decision. Defined.

Inductive exn : Type :=
| ValueError
| IndexError
| KeyError.

Inductive result (A : Type) : Type :=
| Ok (a : A)
| Raise (e : exn).

Arguments Ok {A} a.
Arguments Raise {A} e.

Global Instance result_ret : MRet result := fun _ a => Ok a.

Global Instance result_bind : MBind result := fun _ _ k r =>
  match r with
  | Ok a => k a
  | Raise e => Raise e
  end.

(** ** Characters and string primitives *)

Module Py.

Definition code (c : ascii) : N := N_of_ascii c.

Definition in_range (lo hi : N) (c : ascii) : bool :=
  ((lo <=? code c) && (code c <=? hi))%N.

(** The characters of the class [A-Za-z0-9]. *)
Definition alnum (c : ascii) : bool :=
  in_range 65 90 c || in_range 97 122 c || in_range 48 57 c.

(** [str.isspace] on one character, the set [str.strip()] removes:
    TAB, LF, VT, FF, CR, the separators FS, GS, RS, US, the space, NEL and
    the no-break space. *)
Definition isspace (c : ascii) : bool :=
  in_range 9 13 c || in_range 28 32 c
  || (code c =? 133)%N || (code c =? 160)%N.

(** The characters [int()] skips around a literal: the ASCII white space
    TAB..CR and the space, and the two non-ASCII spaces below 256, which
    [int()] first turns into spaces. *)
Definition int_space (c : ascii) : bool :=
  in_range 9 13 c || (code c =? 32)%N
  || (code c =? 133)%N || (code c =? 160)%N.

Definition chars (s : string) : list ascii := String.list_ascii_of_string s.

Definition of_chars (l : list ascii) : string := String.string_of_list_ascii l.

(** [x in s] on strings: [x] occurs in [s] as a contiguous substring. *)
Fixpoint contains (x s : string) : bool :=
  String.prefix x s
  || match s with
     | EmptyString => false
     | String _ s' => contains x s'
     end.

(** [s.replace(old, new)] for a non-empty [old]: [skip] counts the
    characters of an occurrence of [old] still to be passed over. *)
Fixpoint replace_from (old new : string) (skip : nat) (s : string) : string :=
  match s with
  | EmptyString => EmptyString
  | String c s' =>
      match skip with
      | S k => replace_from old new k s'
      | O =>
          if String.prefix old s
          then new +:+ replace_from old new (Nat.pred (String.length old)) s'
          else String c (replace_from old new O s')
      end
  end.

Definition replace (old new s : string) : string := replace_from old new O s.

(** Puts a character in front of the first piece of a split. *)
Definition push_front (c : ascii) (l : list string) : list string :=
  match l with
  | [] => [String c EmptyString]
  | h :: t => String c h :: t
  end.

(** [s.split(sep)] for a non-empty [sep]: the pieces between the
    occurrences of [sep], found left to right; the result is never
    empty. *)
Fixpoint split_from (sep : string) (skip : nat) (s : string) : list string :=
  match s with
  | EmptyString => [EmptyString]
  | String c s' =>
      match skip with
      | S k => split_from sep k s'
      | O =>
          if String.prefix sep s
          then EmptyString :: split_from sep (Nat.pred (String.length sep)) s'
          else push_front c (split_from sep O s')
      end
  end.

Definition split (sep s : string) : list string := split_from sep O s.

(** [s.lstrip()], [s.rstrip()] and [s.strip()] without argument. *)
Fixpoint lstrip (s : string) : string :=
  match s with
  | EmptyString => EmptyString
  | String c s' => if isspace c then lstrip s' else s
  end.

Fixpoint rstrip (s : string) : string :=
  match s with
  | EmptyString => EmptyString
  | String c s' =>
      match rstrip s' with
      | EmptyString => if isspace c then EmptyString else String c EmptyString
      | r => String c r
      end
  end.

Definition strip (s : string) : string := rstrip (lstrip s).

(** [re.sub("[cls]+", repl, s)] for a character class [cls]: every maximal
    run of characters of the class is replaced by [repl]; [in_run] tells
    that the previous character belonged to the run being replaced. *)
Fixpoint re_sub_class_plus (cls : ascii -> bool) (repl : string)
    (in_run : bool) (s : string) : string :=
  match s with
  | EmptyString => EmptyString
  | String c s' =>
      if cls c
      then (if in_run then re_sub_class_plus cls repl true s'
            else repl +:+ re_sub_class_plus cls repl true s')
      else String c (re_sub_class_plus cls repl false s')
  end.

(** [l.pop(0)]: the first element and the list without it. *)
Definition pop0 {A : Type} (l : list A) : result (A * list A) :=
  match l with
  | [] => Raise IndexError
  | x :: l' => Ok (x, l')
  end.

(** [l[0]]. *)
Definition item0 {A : Type} (l : list A) : result A :=
  match l with
  | [] => Raise IndexError
  | x :: _ => Ok x
  end.

(** A [for] loop whose body may raise: the state is threaded through the
    elements in order and the first exception ends the loop. *)
Fixpoint for_each {A S : Type} (l : list A) (body : S -> A -> result S)
    (st : S) : result S :=
  match l with
  | [] => Ok st
  | x :: l' => st' ← body st x; for_each l' body st'
  end.

(** [d[k]] on a dict written as a literal, in insertion order. *)
Fixpoint getitem {V : Type} (d : list (string * V)) (k : string) : result V :=
  match d with
  | [] => Raise KeyError
  | (k', v) :: d' => if decide (k' = k) then Ok v else getitem d' k
  end.

(** [d.keys()], in insertion order. *)
Definition keys {V : Type} (d : list (string * V)) : list string := d.*1.

(** *** [int(s)] on a string, base 10 *)

Definition digit_value (c : ascii) : option Z :=
  if in_range 48 57 c then Some (Z.of_N (code c) - 48) else None.

Definition is_underscore (c : ascii) : bool := (code c =? 95)%N.

(** What follows the digits: white space only. *)
Fixpoint all_space (s : string) : bool :=
  match s with
  | EmptyString => true
  | String c s' => int_space c && all_space s'
  end.

(** The digits of a literal with their single underscores: [acc] is the
    value read so far, [digits] the number of digits read, [prev] the
    previous character.  A leading, doubled or trailing underscore and an
    empty digit sequence are refused; the result is the value, the number of
    digits and the rest of the string. *)
Fixpoint int_digits (acc : Z) (digits : nat) (prev : option ascii)
    (s : string) : option (Z * nat * string) :=
  let stop (rest : string) :=
    match prev with
    | None => None
    | Some p => if is_underscore p then None else Some (acc, digits, rest)
    end in
  match s with
  | EmptyString => stop EmptyString
  | String c s' =>
      match digit_value c with
      | Some v => int_digits (10 * acc + v) (S digits) (Some c) s'
      | None =>
          if is_underscore c
          then match prev with
               | None => None
               | Some p =>
                   if is_underscore p then None
                   else int_digits acc digits (Some c) s'
               end
          else stop s
      end
  end.

Fixpoint skip_space (s : string) : string :=
  match s with
  | EmptyString => EmptyString
  | String c s' => if int_space c then skip_space s' else s
  end.

(** The default of [sys.get_int_max_str_digits()]: a literal with more
    digits is refused. *)
Definition int_max_str_digits : nat := 4300.

(** [int(s)]: optional white space, an optional sign, the digits, optional
    white space; anything else raises [ValueError]. *)
Definition int (s : string) : result Z :=
  let s1 := skip_space s in
  let '(sign, s2) :=
    match s1 with
    | String c r =>
        if (code c =? 43)%N then (1, r)
        else if (code c =? 45)%N then (-1, r)
        else (1, s1)
    | EmptyString => (1, s1)
    end in
  match int_digits 0 0 None s2 with
  | Some (v, digits, rest) =>
      if all_space rest
      then if (int_max_str_digits <? digits)%nat then Raise ValueError
           else Ok (sign * v)
      else Raise ValueError
  | None => Raise ValueError
  end.

End Py.

(** ** Phone numbers *)

Definition process_campsites_phone_number (phone_number_str : option string)
    : option string :=
  match phone_number_str with
  | None => None
  | Some s => Some (Py.re_sub_class_plus (fun c => negb (Py.alnum c)) "" false s)
  end.

(** ** Season ranges *)

Definition dates_map : list (string * Z) :=
  [("jan", 1); ("feb", 2); ("mar", 3); ("apr", 4); ("may", 5); ("jun", 6);
   ("jul", 7); ("aug", 8); ("sep", 9); ("oct", 10); ("nov", 11); ("dec", 12)].

(** The loop [while cur not in dates_map.keys() and len(arr) > 0:
    cur = arr.pop(0)]; it returns the final [cur] and [arr]. *)
Fixpoint skip_to_month (cur : string) (arr : list string) {struct arr}
    : string * list string :=
  if bool_decide (cur ∉ Py.keys dates_map) && bool_decide (0 < length arr)%nat
  then match arr with
       | x :: arr' => skip_to_month x arr'
       | [] => (cur, arr)
       end
  else (cur, arr).

(** The loop [for month in dates_map.keys(): if month == open_str: ...]. *)
Definition set_month_open (open_str : string) (dates_dict : gmap string pyval)
    : result (gmap string pyval) :=
  Py.for_each (Py.keys dates_map)
    (fun d month =>
       if bool_decide (month = open_str)
       then n ← Py.getitem dates_map month; Ok (<["month_open" := PInt n]> d)
       else Ok d)
    dates_dict.

(** The loop [for month in dates_map.keys(): if month in close_str: ...]. *)
Definition set_month_close (close_str : string) (dates_dict : gmap string pyval)
    : result (gmap string pyval) :=
  Py.for_each (Py.keys dates_map)
    (fun d month =>
       if Py.contains month close_str
       then n ← Py.getitem dates_map month; Ok (<["month_close" := PInt n]> d)
       else Ok d)
    dates_dict.

Definition dates_dict0 : gmap string pyval :=
  <["month_close" := PNone]> (<["month_open" := PNone]> ∅).

Definition process_campsites_dates (date_open_str : option string)
    : result (gmap string pyval) :=
  let dates_dict := dates_dict0 in
  match date_open_str with
  | None => Ok dates_dict
  | Some date_open_str =>
      if decide (date_open_str = "all year")
      then Ok (<["month_close" := PInt 12]> (<["month_open" := PInt 1]> dates_dict))
      else
        let date_open_arr := Py.split " " (Py.replace "-" " " date_open_str) in
        '(open_str, date_open_arr) ← Py.pop0 date_open_arr;
        let '(open_str, date_open_arr) := skip_to_month open_str date_open_arr in
        dates_dict ← set_month_open open_str dates_dict;
        if decide (length date_open_arr = 0%nat)
        then Ok dates_dict
        else
          '(close_str, date_open_arr) ← Py.pop0 date_open_arr;
          let '(close_str, date_open_arr) := skip_to_month close_str date_open_arr in
          set_month_close close_str dates_dict
  end.

(** ** Countries *)

Definition canadian_provinces : list string :=
  ["AB"; "BC"; "MB"; "NB"; "NL"; "NT"; "NS"; "NU"; "ON"; "PE"; "QC"; "SK"; "YT"].

Definition process_campsites_country (state_str : string) : string :=
  if decide (state_str ∈ canadian_provinces) then "CAN" else "USA".

(** ** Amenities *)

Definition amenity_dict0 : gmap string pyval :=
  <["low_no_fee" := PNone]> (
  <["accepts_pets" := PNone]> (
  <["accepts_reservations" := PNone]> (
  <["has_showers" := PNone]> (
  <["has_drinking_water" := PNone]> (
  <["toilet_type" := PNone]> (
  <["has_toilets" := PNone]> (
  <["max_rv_length" := PNone]> (
  <["has_sanitary_dump" := PNone]> (
  <["has_sewer_hookup" := PNone]> (
  <["has_electric_hookup" := PNone]> (
  <["has_water_hookup" := PNone]> ∅))))))))))).

Definition toilet_map : list (string * string) :=
  [("FT", "flush"); ("VT", "vault"); ("FTVT", "mixed"); ("PT", "pit")].

(** The body of the loop over the amenity codes is a sequence of [if]
    statements, one per group of codes; each is a function here, named after
    the comment that heads it in the source. *)

Definition hookups (amenity_code : string) (d : gmap string pyval)
    : gmap string pyval :=
  if decide (amenity_code ∈ ["NH"; "E"; "WE"; "WES"])
  then
    let d := <["has_electric_hookup" := PBool (Py.contains "E" amenity_code)]> d in
    let d := <["has_water_hookup" := PBool (Py.contains "W" amenity_code)]> d in
    let d := <["has_sewer_hookup" := PBool (Py.contains "S" amenity_code)]> d in
    if decide (amenity_code ≠ "NH") then <["has_rv_hookup" := PBool true]> d
    else if decide (amenity_code = "NH") then <["has_rv_hookup" := PBool false]> d
    else d
  else d.

Definition sanitary_dump (amenity_code : string) (d : gmap string pyval)
    : gmap string pyval :=
  if decide (amenity_code ∈ ["DP"; "NP"])
  then <["has_sanitary_dump" := PBool (bool_decide (amenity_code = "DP"))]> d
  else d.

(** [int(amenity_code.split("ft")[0])]. *)
Definition rv_length (amenity_code : string) : result Z :=
  prefix ← Py.item0 (Py.split "ft" amenity_code); Py.int prefix.

Definition max_rv_length (amenity_code : string) (d : gmap string pyval)
    : result (gmap string pyval) :=
  if Py.contains "ft" amenity_code
  then length ← rv_length amenity_code; Ok (<["max_rv_length" := PInt length]> d)
  else Ok d.

Definition toilets (amenity_code : string) (d : gmap string pyval)
    : result (gmap string pyval) :=
  if decide (amenity_code ∈ ["FT"; "VT"; "FTVT"; "PT"; "NT"])
  then
    if decide (amenity_code = "NT")
    then Ok (<["has_toilets" := PBool false]> d)
    else
      let d := <["has_toilets" := PBool true]> d in
      t ← Py.getitem toilet_map amenity_code;
      Ok (<["toilet_type" := PStr t]> d)
  else Ok d.

Definition drinking_water (amenity_code : string) (d : gmap string pyval)
    : gmap string pyval :=
  if decide (amenity_code ∈ ["DW"; "NW"])
  then <["has_drinking_water" := PBool (bool_decide (amenity_code = "DW"))]> d
  else d.

Definition showers (amenity_code : string) (d : gmap string pyval)
    : gmap string pyval :=
  if decide (amenity_code ∈ ["SH"; "NS"])
  then <["has_showers" := PBool (bool_decide (amenity_code = "SH"))]> d
  else d.

Definition reservations (amenity_code : string) (d : gmap string pyval)
    : gmap string pyval :=
  if decide (amenity_code ∈ ["RS"; "NR"])
  then <["accepts_reservations" := PBool (bool_decide (amenity_code = "RS"))]> d
  else d.

Definition pets (amenity_code : string) (d : gmap string pyval)
    : gmap string pyval :=
  if decide (amenity_code ∈ ["PA"; "NP"])
  then <["accepts_pets" := PBool (bool_decide (amenity_code = "PA"))]> d
  else d.

Definition low_fee (amenity_code : string) (d : gmap string pyval)
    : gmap string pyval :=
  if decide (amenity_code = "L$")
  then <["low_no_fee" := PBool true]> d
  else d.

(** One iteration of [for amenity_code in amenities]. *)
Definition amenity_step (amenity_dict : gmap string pyval) (amenity_code : string)
    : result (gmap string pyval) :=
  let d := hookups amenity_code amenity_dict in
  let d := sanitary_dump amenity_code d in
  d ← max_rv_length amenity_code d;
  d ← toilets amenity_code d;
  let d := drinking_water amenity_code d in
  let d := showers amenity_code d in
  let d := reservations amenity_code d in
  let d := pets amenity_code d in
  Ok (low_fee amenity_code d).

(** [amenity_str.strip().split(" ")]. *)
Definition amenity_codes (amenity_str : string) : list string :=
  Py.split " " (Py.strip amenity_str).

Definition process_campsites_amenities (amenity_str : option string)
    : result (gmap string pyval) :=
  match amenity_str with
  | None => Ok amenity_dict0
  | Some amenity_str =>
      Py.for_each (amenity_codes amenity_str) amenity_step amenity_dict0
  end.

(** ** Notions the statements below are written with *)

(** The specification's wording of the phone normaliser: the characters
    outside [A-Za-z0-9] are deleted, the others kept in their order. *)
Definition delete_non_alnum (s : string) : string :=
  Py.of_chars (List.filter Py.alnum (Py.chars s)).

(** The tokens of a season description:
    [date_open_str.replace("-", " ").split(" ")]. *)
Definition month_tokens (date_open_str : string) : list string :=
  Py.split " " (Py.replace "-" " " date_open_str).

(** A token that is exactly one of the twelve abbreviations. *)
Definition is_month (t : string) : bool :=
  bool_decide (t ∈ Py.keys dates_map).

(** The numbers of the months whose abbreviation occurs inside [t], in the
    order of [dates_map]. *)
Definition contained_months (t : string) : list Z :=
  (List.filter (fun e => Py.contains e.1 t) dates_map).*2.

(** A token with a month abbreviation somewhere inside it. *)
Definition contains_month (t : string) : bool :=
  bool_decide (contained_months t ≠ []).

(** The claim on the close scan in the specification's words: once the open
    month [m] is matched and the tokens [rest] remain, the first of them
    with a month abbreviation inside it gives [month_close]. *)
Definition close_month_of_first_containing (date_open_str : string) : Prop :=
  forall pre m rest t d,
    month_tokens date_open_str = pre ++ m :: rest ->
    Forall (fun t => is_month t = false) pre ->
    is_month m = true ->
    List.find contains_month rest = Some t ->
    process_campsites_dates (Some date_open_str) = Ok d ->
    exists n, n ∈ contained_months t /\ d !! "month_close" = Some (PInt n).

(** A step of the loop only writes: on any dict it leaves the bindings it
    would leave on the empty dict, over the bindings that were there. *)
Definition only_writes (f : gmap string pyval -> gmap string pyval) : Prop :=
  forall d, f d = f ∅ ∪ d.

(** The assignment of [max_rv_length] once the length is parsed, if there is
    one to parse. *)
Definition set_length (length : option Z) (d : gmap string pyval)
    : gmap string pyval :=
  match length with
  | Some n => <["max_rv_length" := PInt n]> d
  | None => d
  end.

(** The toilets rule with the lookup in [toilet_map] resolved. *)
Definition set_toilets (amenity_code : string) (d : gmap string pyval)
    : gmap string pyval :=
  if decide (amenity_code ∈ ["FT"; "VT"; "FTVT"; "PT"; "NT"])
  then if decide (amenity_code = "NT")
       then <["has_toilets" := PBool false]> d
       else match Py.getitem toilet_map amenity_code with
            | Ok t => <["toilet_type" := PStr t]> (<["has_toilets" := PBool true]> d)
            | Raise _ => d
            end
  else d.

(** The writes of one step, given the parsed length. *)
Definition step_writes (amenity_code : string) (length : option Z)
    (d : gmap string pyval) : gmap string pyval :=
  low_fee amenity_code (
  pets amenity_code (
  reservations amenity_code (
  showers amenity_code (
  drinking_water amenity_code (
  set_toilets amenity_code (
  set_length length (
  sanitary_dump amenity_code (
  hookups amenity_code d)))))))).

(** A code whose length, if it has one, parses. *)
Definition length_parses (amenity_code : string) : Prop :=
  Py.contains "ft" amenity_code = true -> exists z, rv_length amenity_code = Ok z.

(** The value a call returned, [dflt] if it raised. *)
Definition returned {A : Type} (dflt : A) (r : result A) : A :=
  match r with
  | Ok a => a
  | Raise _ => dflt
  end.

Definition returns {A : Type} (r : result A) : bool :=
  match r with
  | Ok _ => true
  | Raise _ => false
  end.

(** What one amenity code writes to the key [key]: the binding the loop body
    leaves in a dict that was empty before it, and nothing when the body
    raises. *)
Definition assigned (amenity_code key : string) : option pyval :=
  match amenity_step ∅ amenity_code with
  | Ok d => d !! key
  | Raise _ => None
  end.

(** A value of [month_open] or [month_close]: [None] or a month number. *)
Definition month_value (v : pyval) : Prop :=
  v = PNone \/ exists n, v = PInt n /\ 1 <= n <= 12.

(** The dict with the two months bound to [o] and [c]. *)
Definition dates_record (o c : pyval) : gmap string pyval :=
  <["month_close" := c]> (<["month_open" := o]> ∅).

(** The codes the loop body compares a token with. *)
Definition amenity_vocabulary : list string :=
  ["NH"; "E"; "WE"; "WES"; "DP"; "NP"; "FT"; "VT"; "FTVT"; "PT"; "NT";
   "DW"; "NW"; "SH"; "NS"; "RS"; "NR"; "PA"; "L$"].

(** A token that some [if] of the loop body matches. *)
Definition recognised (amenity_code : string) : bool :=
  bool_decide (amenity_code ∈ amenity_vocabulary)
  || Py.contains "ft" amenity_code.

(** The keys of the initial record. *)
Definition default_keys : list string :=
  ["has_water_hookup"; "has_electric_hookup"; "has_sewer_hookup";
   "has_sanitary_dump"; "max_rv_length"; "has_toilets"; "toilet_type";
   "has_drinking_water"; "has_showers"; "accepts_reservations";
   "accepts_pets"; "low_no_fee"].

(** The values a key of the amenity record can be bound to. *)
Definition field_value (key : string) (v : pyval) : Prop :=
  if decide (key = "max_rv_length") then v = PNone \/ exists n, v = PInt n
  else if decide (key = "toilet_type")
  then v = PNone \/ v ∈ [PStr "flush"; PStr "vault"; PStr "mixed"; PStr "pit"]
  else if decide (key = "low_no_fee") then v = PNone \/ v = PBool true
  else v = PNone \/ exists b, v = PBool b.

(** The keys a returned record can hold: those of the initial record and
    [has_rv_hookup]. *)
Definition all_keys : list string := "has_rv_hookup" :: default_keys.

(** Every binding of the dict has one of the keys above and a value that
    fits the key. *)
Definition fields_typed (d : gmap string pyval) : Prop :=
  forall key v, d !! key = Some v -> key ∈ all_keys /\ field_value key v.

(** The four fields the hookup codes write, as they stand in a dict. *)
Definition hookup_fields (d : gmap string pyval)
    : option pyval * option pyval * option pyval * option pyval :=
  (d !! "has_rv_hookup", d !! "has_electric_hookup",
   d !! "has_water_hookup", d !! "has_sewer_hookup").

(** A text that does not begin with white space. *)
Definition no_leading_space (s : string) : Prop :=
  match s with
  | EmptyString => True
  | String c _ => Py.isspace c = false
  end.

(** A decimal digit, and the number a sequence of digits writes. *)
Definition is_digit (c : ascii) : bool := Py.in_range 48 57 c.

Definition decimal (ds : list ascii) : Z :=
  fold_left (fun acc c => 10 * acc + (Z.of_N (Py.code c) - 48)) ds 0.

(** The claim on the code "NP" in the specification's words: an input with
    the token "NP" among its tokens gives a record with [has_sanitary_dump]
    and [accepts_pets] both [False]. *)
Definition np_gives_both_false (amenity_str : string) : Prop :=
  forall d,
    "NP" ∈ amenity_codes amenity_str ->
    process_campsites_amenities (Some amenity_str) = Ok d ->
    d !! "has_sanitary_dump" = Some (PBool false)
    /\ d !! "accepts_pets" = Some (PBool false).

(** ** The phone normaliser *)

Section phone.

Implicit Types (s : string) (l : list ascii).

Lemma re_sub_delete cls b s :
  Py.re_sub_class_plus cls "" b s
  = Py.of_chars (List.filter (fun c => negb (cls c)) (Py.chars s)).
Proof.
  revert b. induction s as [|c s IH]; intros b; [done|].
  cbn [Py.re_sub_class_plus Py.chars String.list_ascii_of_string List.filter].
  destruct (cls c); cbn [negb].
  - destruct b; [apply IH|]. change ("" +:+ ?x) with x. apply IH.
  - cbn [Py.of_chars String.string_of_list_ascii]. f_equal. apply IH.
Qed.

Lemma chars_of_chars l : Py.chars (Py.of_chars l) = l.
Proof. apply String.list_ascii_of_string_of_list_ascii. Qed.

Lemma filter_twice (f : ascii -> bool) l :
  List.filter f (List.filter f l) = List.filter f l.
Proof.
  induction l as [|c l IH]; [done|]. cbn [List.filter].
  destruct (f c) eqn:E; [|done]. cbn [List.filter]. by rewrite E, IH.
Qed.

Lemma phone_some s :
  process_campsites_phone_number (Some s) = Some (delete_non_alnum s).
Proof.
  cbn [process_campsites_phone_number]. rewrite re_sub_delete.
  unfold delete_non_alnum. do 2 f_equal.
  apply filter_ext. intros c. by rewrite negb_involutive.
Qed.

(** C4. The phone normaliser maps an absent input to an absent output and
    a present string to that string with exactly the characters outside
    [A-Za-z0-9] deleted: the result is the subsequence of the alphanumeric
    characters of the input, in their order and unchanged. *)
Theorem phone_number_keeps_alnum :
  process_campsites_phone_number None = None
  /\ forall s,
       process_campsites_phone_number (Some s)
       = Some (Py.of_chars (List.filter Py.alnum (Py.chars s))).
Proof. split; [done|]. apply phone_some. Qed.

(** C8. Normalising a phone number twice gives the same as normalising it
    once, for an absent and for every present input. *)
Theorem phone_number_idempotent (p : option string) :
  process_campsites_phone_number (process_campsites_phone_number p)
  = process_campsites_phone_number p.
Proof.
  destruct p as [s|]; [|done]. rewrite !phone_some. f_equal.
  unfold delete_non_alnum. by rewrite chars_of_chars, filter_twice.
Qed.

End phone.

(** ** The country classifier *)

(** C6. The classifier answers "CAN" exactly on the thirteen abbreviations
    of [canadian_provinces] and "USA" on every other string, so its answer
    is always one of the two; "ON" is Canadian, "CA" is not. *)
Theorem country_can_iff_province :
  canadian_provinces
  = ["AB"; "BC"; "MB"; "NB"; "NL"; "NT"; "NS"; "NU"; "ON"; "PE"; "QC"; "SK"; "YT"]
  /\ (forall s, process_campsites_country s = "CAN" <-> s ∈ canadian_provinces)
  /\ (forall s, s ∉ canadian_provinces -> process_campsites_country s = "USA")
  /\ (forall s, process_campsites_country s = "CAN"
                \/ process_campsites_country s = "USA")
  /\ process_campsites_country "ON" = "CAN"
  /\ process_campsites_country "CA" = "USA".
Proof.
  split; [done|]. unfold process_campsites_country.
  split; [|split; [|split; [|split]]]; try done; intros s; case_decide; naive_solver.
Qed.

Lemma country_can_iff_province_witness :
  process_campsites_country "CA" = "USA".
Proof.
  apply (proj1 (proj2 (proj2 country_can_iff_province)) "CA").
  intros H. repeat (apply elem_of_cons in H as [H|H]; [discriminate H|]).
  by apply elem_of_nil in H.
Defined.

(** ** The season range decoder *)

Section dates.

Implicit Types (s t cur : string) (arr pre rest : list string)
  (d : gmap string pyval).

Lemma split_from_nonempty sep k s : Py.split_from sep k s ≠ [].
Proof.
  revert k. induction s as [|c s IH]; intros k; [done|].
  cbn [Py.split_from]. destruct k; [|apply IH].
  destruct (String.prefix sep _); [done|].
  unfold Py.push_front. by destruct (Py.split_from sep 0 s).
Qed.

Lemma month_tokens_nonempty s : month_tokens s ≠ [].
Proof. apply split_from_nonempty. Qed.

Lemma getitem_dates_map :
  Forall (fun e => Py.getitem dates_map e.1 = Ok e.2) dates_map.
Proof. repeat constructor. Qed.

Lemma is_month_getitem t :
  is_month t = true -> exists n, Py.getitem dates_map t = Ok n
                                 /\ (t, n) ∈ dates_map.
Proof.
  unfold is_month. intros H%bool_decide_eq_true_1.
  apply list_elem_of_fmap in H as ([m n] & -> & Hin).
  exists n. split; [|done].
  by apply (proj1 (Forall_forall _ _) getitem_dates_map (m, n)).
Qed.

Lemma getitem_missing {V : Type} (es : list (string * V)) t :
  t ∉ Py.keys es -> Py.getitem es t = Raise KeyError.
Proof.
  unfold Py.keys. induction es as [|[m n] es IH]; [done|].
  cbn [fmap list_fmap fst Py.getitem]. intros [Hm Hes]%not_elem_of_cons.
  rewrite decide_False by done. by apply IH.
Qed.

Lemma not_month_getitem t :
  is_month t = false -> Py.getitem dates_map t = Raise KeyError.
Proof.
  unfold is_month. intros H%bool_decide_eq_false_1. by apply getitem_missing.
Qed.

Lemma filter_key_missing {V : Type} (es : list (string * V)) t :
  t ∉ Py.keys es -> List.filter (fun e => bool_decide (e.1 = t)) es = [].
Proof.
  unfold Py.keys. induction es as [|[m n] es IH]; [done|].
  cbn [fmap list_fmap fst List.filter]. intros [Hm Hes]%not_elem_of_cons.
  rewrite bool_decide_eq_false_2 by done. by apply IH.
Qed.

(** The loop of [set_month_open] and [set_month_close], over any part [es] of
    the table: the last entry that passes the test is the one that stays. *)
Lemma month_loop (P : string -> bool) (key : string) (es : list (string * Z)) d :
  Forall (fun e => Py.getitem dates_map e.1 = Ok e.2) es ->
  Py.for_each (Py.keys es)
    (fun d month =>
       if P month
       then n ← Py.getitem dates_map month; Ok (<[key := PInt n]> d)
       else Ok d) d
  = Ok (match last (List.filter (fun e => P e.1) es).*2 with
        | Some n => <[key := PInt n]> d
        | None => d
        end).
Proof.
  intros Hes. revert d. induction Hes as [|[m n] es Hm Hes IH]; intros d; [done|].
  cbn [Py.keys fmap list_fmap Py.for_each List.filter fst] in *.
  destruct (P m) eqn:HP.
  - cbn [snd] in Hm. rewrite Hm. cbn [mbind result_bind].
    unfold Py.keys in IH. rewrite IH. f_equal.
    cbn [fmap list_fmap snd]. rewrite last_cons.
    destruct (last _); [apply insert_insert_eq|done].
  - cbn [mbind result_bind]. unfold Py.keys in IH. by rewrite IH.
Qed.

Lemma set_month_close_eq t d :
  set_month_close t d
  = Ok (match last (contained_months t) with
        | Some n => <["month_close" := PInt n]> d
        | None => d
        end).
Proof.
  unfold set_month_close, contained_months.
  apply (month_loop (fun m => Py.contains m t)), getitem_dates_map.
Qed.

Lemma set_month_open_eq t d :
  set_month_open t d
  = Ok (match Py.getitem dates_map t with
        | Ok n => <["month_open" := PInt n]> d
        | Raise _ => d
        end).
Proof.
  unfold set_month_open.
  rewrite (month_loop (fun m => bool_decide (m = t)) "month_open" dates_map).
  - f_equal. destruct (is_month t) eqn:Ht.
    + apply bool_decide_eq_true_1 in Ht. cbn in Ht.
      repeat (apply elem_of_cons in Ht as [->|Ht]; [done|]).
      by apply elem_of_nil in Ht.
    + rewrite (not_month_getitem _ Ht).
      apply bool_decide_eq_false_1 in Ht. by rewrite filter_key_missing.
  - apply getitem_dates_map.
Qed.

Lemma skip_to_month_cons cur x arr :
  skip_to_month cur (x :: arr)
  = if is_month cur then (cur, x :: arr) else skip_to_month x arr.
Proof.
  cbn [skip_to_month]. unfold is_month.
  rewrite (bool_decide_eq_true_2 (0 < length (x :: arr))%nat) by (cbn; lia).
  rewrite andb_true_r. by repeat case_bool_decide.
Qed.

Lemma skip_to_month_nil cur : skip_to_month cur [] = (cur, []).
Proof. cbn. by rewrite andb_false_r. Qed.

(** Where the [while] loop stops: on the first token that is exactly a month,
    or else on the last token. *)
Lemma skip_to_month_stops pre cur rest x arr :
  x :: arr = pre ++ cur :: rest ->
  Forall (fun t => is_month t = false) pre ->
  is_month cur = true \/ rest = [] ->
  skip_to_month x arr = (cur, rest).
Proof.
  intros Heq Hpre. revert x arr Heq.
  induction Hpre as [|p pre Hp Hpre IH]; intros x arr Heq Hcur.
  - cbn in Heq. injection Heq as -> ->.
    destruct rest as [|y rest]; [apply skip_to_month_nil|].
    rewrite skip_to_month_cons. by destruct Hcur as [->|?].
  - cbn in Heq. injection Heq as -> ->.
    destruct pre as [|q pre]; cbn [app]; rewrite skip_to_month_cons, Hp;
      by apply IH.
Qed.

Lemma skip_to_month_split x arr :
  exists pre cur rest,
    skip_to_month x arr = (cur, rest)
    /\ x :: arr = pre ++ cur :: rest
    /\ Forall (fun t => is_month t = false) pre
    /\ (is_month cur = true \/ rest = []).
Proof.
  revert x. induction arr as [|y arr IH]; intros x.
  - exists [], x, []. rewrite skip_to_month_nil. auto.
  - rewrite skip_to_month_cons. destruct (is_month x) eqn:Hx.
    + exists [], x, (y :: arr). auto.
    + destruct (IH y) as (pre & cur & rest & -> & Heq & Hpre & Hcur).
      exists (x :: pre), cur, rest. rewrite Heq. auto.
Qed.

(** The decoder on a present string other than "all year", with its two
    scans named. *)
Lemma dates_unfold s :
  s ≠ "all year" ->
  process_campsites_dates (Some s)
  = match month_tokens s with
    | [] => Raise IndexError
    | x :: arr =>
        let '(open_str, arr) := skip_to_month x arr in
        d ← set_month_open open_str dates_dict0;
        match arr with
        | [] => Ok d
        | y :: arr' => set_month_close (skip_to_month y arr').1 d
        end
    end.
Proof.
  intros Hs. unfold process_campsites_dates. rewrite decide_False by done.
  fold (month_tokens s). destruct (month_tokens s) as [|x arr]; [done|].
  cbn [Py.pop0 mbind result_bind]. destruct (skip_to_month x arr) as [o arr'].
  rewrite set_month_open_eq. cbn [mbind result_bind].
  destruct arr' as [|y arr'']; [done|]. cbn [length Py.pop0 mbind result_bind].
  rewrite decide_False by done. by destruct (skip_to_month y arr'').
Qed.

Lemma all_year_tokens : month_tokens "all year" = ["all"; "year"].
Proof. reflexivity. Qed.

(** A month among the tokens rules "all year" out. *)
Lemma month_token_not_all_year s pre m rest :
  month_tokens s = pre ++ m :: rest -> is_month m = true -> s ≠ "all year".
Proof.
  intros Heq Hm ->. rewrite all_year_tokens in Heq.
  assert (m ∈ ["all"; "year"]) as Hin by (rewrite Heq; set_solver).
  apply elem_of_cons in Hin as [->|Hin]; [done|].
  apply elem_of_cons in Hin as [->|Hin]; [done|]. by apply elem_of_nil in Hin.
Qed.

(** The decoder when the open scan finds the month [m] after the tokens
    [pre]. *)
Lemma dates_open_found s pre m n rest :
  month_tokens s = pre ++ m :: rest ->
  Forall (fun t => is_month t = false) pre ->
  Py.getitem dates_map m = Ok n ->
  process_campsites_dates (Some s)
  = match rest with
    | [] => Ok (<["month_open" := PInt n]> dates_dict0)
    | y :: arr' =>
        set_month_close (skip_to_month y arr').1
          (<["month_open" := PInt n]> dates_dict0)
    end.
Proof.
  intros Heq Hpre Hn.
  assert (is_month m = true) as Hm.
  { destruct (is_month m) eqn:E; [done|].
    by rewrite (not_month_getitem _ E) in Hn. }
  rewrite dates_unfold by (by eapply month_token_not_all_year).
  destruct (month_tokens s) as [|x arr] eqn:Ht; [by destruct pre|].
  rewrite (skip_to_month_stops pre m rest x arr) by auto.
  rewrite set_month_open_eq, Hn. done.
Qed.

(** The decoder when no token is exactly a month. *)
Lemma dates_open_missing s :
  s ≠ "all year" ->
  Forall (fun t => is_month t = false) (month_tokens s) ->
  process_campsites_dates (Some s) = Ok dates_dict0.
Proof.
  intros Hs Hall. rewrite dates_unfold by done.
  destruct (month_tokens s) as [|x arr] eqn:Ht; [by apply month_tokens_nonempty in Ht|].
  destruct (exists_last (l := x :: arr)) as (pre & cur & Heq); [done|].
  rewrite Heq in Hall. apply Forall_app in Hall as [Hpre Hcur].
  apply Forall_cons in Hcur as [Hcur _].
  rewrite (skip_to_month_stops pre cur [] x arr) by auto.
  rewrite set_month_open_eq, (not_month_getitem _ Hcur). done.
Qed.

Lemma dates_map_sorted : StronglySorted Z.lt dates_map.*2.
Proof. repeat constructor. Qed.

Lemma filter_snd_sorted (P : string * Z -> bool) (es : list (string * Z)) :
  StronglySorted Z.lt es.*2 -> StronglySorted Z.lt (List.filter P es).*2.
Proof.
  induction es as [|e es IH]; [done|]. cbn [fmap list_fmap List.filter].
  intros [Hs Hlt]%StronglySorted_inv. destruct (P e); [|by apply IH].
  cbn [fmap list_fmap]. constructor; [by apply IH|].
  rewrite Forall_forall in Hlt |- *. intros n Hn. apply Hlt.
  apply list_elem_of_fmap in Hn as (e' & -> & He').
  apply list_elem_of_fmap. exists e'. split; [done|].
  apply list_elem_of_In, filter_In in He'. apply list_elem_of_In, He'.
Qed.

Lemma last_sorted_max (l : list Z) (n : Z) :
  StronglySorted Z.lt l -> n ∈ l -> Forall (fun n' => n' <= n) l ->
  last l = Some n.
Proof.
  induction l as [|x l IH]; intros Hs Hn Hle; [by apply elem_of_nil in Hn|].
  apply StronglySorted_inv in Hs as [Hs Hlt].
  apply Forall_cons in Hle as [_ Hle]. rewrite last_cons.
  destruct l as [|y l].
  - apply elem_of_cons in Hn as [->|Hn]; [done|by apply elem_of_nil in Hn].
  - rewrite IH; [done|done| |done].
    apply elem_of_cons in Hn as [->|Hn]; [|done].
    apply Forall_cons in Hlt as [Hlt _]. apply Forall_cons in Hle as [Hle _]. lia.
Qed.

Lemma contained_months_sorted t : StronglySorted Z.lt (contained_months t).
Proof. apply filter_snd_sorted, dates_map_sorted. Qed.

Lemma lookup_month_close n d :
  (<["month_open" := PInt n]> d) !! "month_close" = d !! "month_close".
Proof. by apply lookup_insert_ne. Qed.

(** C5. On a present input other than "all year", [month_open] is set from
    the first token of [replace("-", " ").split(" ")] that is exactly a
    month abbreviation; when no token is one, the decoder returns the
    initial record, both months absent, as no close scan has run. *)
Theorem month_open_first_exact_match s :
  s ≠ "all year" ->
  (forall pre m rest,
     month_tokens s = pre ++ m :: rest ->
     Forall (fun t => is_month t = false) pre ->
     is_month m = true ->
     exists d n,
       process_campsites_dates (Some s) = Ok d
       /\ Py.getitem dates_map m = Ok n
       /\ d !! "month_open" = Some (PInt n))
  /\ (Forall (fun t => is_month t = false) (month_tokens s) ->
      process_campsites_dates (Some s) = Ok dates_dict0
      /\ dates_dict0 !! "month_open" = Some PNone
      /\ dates_dict0 !! "month_close" = Some PNone).
Proof.
  intros Hs. split.
  - intros pre m rest Heq Hpre Hm.
    destruct (is_month_getitem _ Hm) as (n & Hn & _).
    rewrite (dates_open_found s pre m n rest) by done.
    destruct rest as [|y arr'].
    + eexists _, n. split; [done|]. split; [done|]. apply lookup_insert_eq.
    + rewrite set_month_close_eq. eexists _, n. split; [done|]. split; [done|].
      destruct (last _); [|apply lookup_insert_eq].
      rewrite lookup_insert_ne by done. apply lookup_insert_eq.
  - intros Hall. split; [by apply dates_open_missing|done].
Qed.

Lemma month_open_first_exact_match_witness :
  exists d n,
    process_campsites_dates (Some "mid may-late sep") = Ok d
    /\ Py.getitem dates_map "may" = Ok n
    /\ d !! "month_open" = Some (PInt n).
Proof.
  apply (proj1 (month_open_first_exact_match "mid may-late sep" ltac:(done))
           ["mid"] "may" ["late"; "sep"]).
  - reflexivity.
  - repeat constructor.
  - reflexivity.
Defined.

(** C2, as the code has it. Once the open month is matched and tokens
    remain, the close scan passes over the remaining tokens up to the first
    one that is exactly a month abbreviation, or up to the last one when none
    is; containment is tested on that token alone: [month_close] is the last
    month of the table whose abbreviation occurs in it, and stays absent when
    none occurs. *)
Theorem close_month_from_stop_token s pre m rest :
  month_tokens s = pre ++ m :: rest ->
  Forall (fun t => is_month t = false) pre ->
  is_month m = true ->
  rest ≠ [] ->
  exists skipped stop after d,
    rest = skipped ++ stop :: after
    /\ Forall (fun t => is_month t = false) skipped
    /\ (is_month stop = true \/ after = [])
    /\ process_campsites_dates (Some s) = Ok d
    /\ d !! "month_close"
       = Some (from_option PInt PNone (last (contained_months stop))).
Proof.
  intros Heq Hpre Hm Hrest.
  destruct (is_month_getitem _ Hm) as (n & Hn & _).
  rewrite (dates_open_found s pre m n rest) by done.
  destruct rest as [|y arr']; [done|].
  destruct (skip_to_month_split y arr')
    as (skipped & stop & after & Hskip & Hsplit & Hskipped & Hstop).
  rewrite Hskip, set_month_close_eq. cbn [fst].
  eexists skipped, stop, after, _. do 4 (split; [done|]).
  destruct (last _); cbn [from_option]; [apply lookup_insert_eq|].
  by rewrite lookup_month_close.
Qed.

Lemma close_month_from_stop_token_witness :
  exists skipped stop after d,
    ["midjun"; "sep"; "x"] = skipped ++ stop :: after
    /\ Forall (fun t => is_month t = false) skipped
    /\ (is_month stop = true \/ after = [])
    /\ process_campsites_dates (Some "may midjun sep x") = Ok d
    /\ d !! "month_close"
       = Some (from_option PInt PNone (last (contained_months stop))).
Proof.
  apply (close_month_from_stop_token "may midjun sep x" [] "may").
  - reflexivity.
  - constructor.
  - reflexivity.
  - discriminate.
Defined.

(** C2 as stated fails: in "may midjun sep" the first remaining token with a
    month inside it is "midjun", which holds June only, and the decoder
    answers September. *)
Lemma close_month_of_first_containing_fails :
  ~ close_month_of_first_containing "may midjun sep".
Proof.
  intros H.
  pose proof (H [] "may" ["midjun"; "sep"] "midjun"
                (<["month_close" := PInt 9]> (<["month_open" := PInt 5]> dates_dict0))
                eq_refl (Forall_nil_2 _) eq_refl eq_refl eq_refl)
    as (n & Hn & Hd).
  rewrite lookup_insert_eq in Hd. injection Hd as <-.
  vm_compute in Hn.
  apply elem_of_cons in Hn as [Hn|Hn]; [discriminate|by apply elem_of_nil in Hn].
Qed.

(** C10. When the token the close scan stops on holds several month
    abbreviations, [month_close] is the one that comes last from January to
    December, the highest number among them: a closing token "junjul" gives
    7. *)
Theorem close_month_latest_contained s pre m skipped stop after n :
  month_tokens s = pre ++ m :: skipped ++ stop :: after ->
  Forall (fun t => is_month t = false) pre ->
  is_month m = true ->
  Forall (fun t => is_month t = false) skipped ->
  is_month stop = true \/ after = [] ->
  n ∈ contained_months stop ->
  Forall (fun n' => n' <= n) (contained_months stop) ->
  exists d,
    process_campsites_dates (Some s) = Ok d
    /\ d !! "month_close" = Some (PInt n).
Proof.
  intros Heq Hpre Hm Hskipped Hstop Hn Hmax.
  destruct (is_month_getitem _ Hm) as (k & Hk & _).
  rewrite (dates_open_found s pre m k (skipped ++ stop :: after)) by done.
  destruct (skipped ++ stop :: after) as [|y arr'] eqn:Hrest; [by destruct skipped|].
  rewrite (skip_to_month_stops skipped stop after y arr') by done.
  rewrite set_month_close_eq. cbn [fst].
  rewrite (last_sorted_max _ n) by auto using contained_months_sorted.
  eexists. split; [done|]. apply lookup_insert_eq.
Qed.

Lemma close_month_latest_contained_witness :
  exists d,
    process_campsites_dates (Some "may junjul") = Ok d
    /\ d !! "month_close" = Some (PInt 7).
Proof.
  apply (close_month_latest_contained "may junjul" [] "may" [] "junjul" []).
  - reflexivity.
  - constructor.
  - reflexivity.
  - constructor.
  - right. reflexivity.
  - vm_compute. apply list_elem_of_further, list_elem_of_here.
  - vm_compute. repeat constructor; discriminate.
Defined.

(** The season range decoder returns a record on every input. *)
Lemma dates_total (x : option string) :
  exists d, process_campsites_dates x = Ok d.
Proof.
  destruct x as [s|]; [|by eexists].
  destruct (decide (s = "all year")) as [->|Hs]; [by eexists|].
  rewrite dates_unfold by done.
  destruct (month_tokens s) as [|y arr] eqn:Ht; [by apply month_tokens_nonempty in Ht|].
  destruct (skip_to_month y arr) as [o arr']. rewrite set_month_open_eq.
  cbn [mbind result_bind]. destruct arr'; [by eexists|].
  rewrite set_month_close_eq. by eexists.
Qed.

End dates.

(** ** The amenity decoder *)

Section amenities.

Implicit Types (c key : string) (d w : gmap string pyval)
  (codes pre post : list string).

Lemma insert_only_writes key (v : pyval) : only_writes (insert key v).
Proof. intros d. by rewrite <-insert_union_l, (left_id_L ∅ (∪)). Qed.

Lemma id_only_writes : only_writes (fun d => d).
Proof. intros d. by rewrite (left_id_L ∅ (∪)). Qed.

Lemma compose_only_writes f g :
  only_writes f -> only_writes g -> only_writes (fun d => f (g d)).
Proof.
  intros Hf Hg d. rewrite (Hf (g d)), (Hg d), (Hf (g ∅)).
  by rewrite (assoc_L (∪)).
Qed.

Ltac only_writes_tac :=
  repeat first
    [ apply id_only_writes
    | apply insert_only_writes
    | apply (compose_only_writes (insert _ _)) ].

Lemma hookups_only_writes c : only_writes (hookups c).
Proof.
  unfold hookups. repeat case_decide; try apply id_only_writes;
    cbv zeta; only_writes_tac.
Qed.

Lemma sanitary_dump_only_writes c : only_writes (sanitary_dump c).
Proof. unfold sanitary_dump. case_decide; only_writes_tac. Qed.

Lemma drinking_water_only_writes c : only_writes (drinking_water c).
Proof. unfold drinking_water. case_decide; only_writes_tac. Qed.

Lemma showers_only_writes c : only_writes (showers c).
Proof. unfold showers. case_decide; only_writes_tac. Qed.

Lemma reservations_only_writes c : only_writes (reservations c).
Proof. unfold reservations. case_decide; only_writes_tac. Qed.

Lemma pets_only_writes c : only_writes (pets c).
Proof. unfold pets. case_decide; only_writes_tac. Qed.

Lemma low_fee_only_writes c : only_writes (low_fee c).
Proof. unfold low_fee. case_decide; only_writes_tac. Qed.

Lemma max_rv_length_eq c d :
  max_rv_length c d
  = if Py.contains "ft" c
    then match rv_length c with
         | Ok n => Ok (<["max_rv_length" := PInt n]> d)
         | Raise e => Raise e
         end
    else Ok d.
Proof. unfold max_rv_length. by destruct (Py.contains "ft" c), (rv_length c). Qed.

(** The lookup in [toilet_map] is made for its four keys only. *)
Lemma toilets_eq c d : toilets c d = Ok (set_toilets c d).
Proof.
  unfold toilets, set_toilets. case_decide as Hc; [|done]. case_decide as Hnt; [done|].
  repeat (apply elem_of_cons in Hc as [->|Hc]; [done|]). by apply elem_of_nil in Hc.
Qed.

Lemma amenity_step_eq d c :
  amenity_step d c
  = if Py.contains "ft" c
    then match rv_length c with
         | Ok n => Ok (step_writes c (Some n) d)
         | Raise e => Raise e
         end
    else Ok (step_writes c None d).
Proof.
  unfold amenity_step. rewrite max_rv_length_eq.
  destruct (Py.contains "ft" c); [destruct (rv_length c)|];
    cbn [mbind result_bind]; try done; by rewrite toilets_eq.
Qed.

Lemma set_toilets_only_writes c : only_writes (set_toilets c).
Proof.
  unfold set_toilets. repeat case_decide; try destruct (Py.getitem _ _);
    only_writes_tac.
Qed.

Lemma set_length_only_writes length : only_writes (set_length length).
Proof. destruct length; only_writes_tac. Qed.

Lemma step_writes_only_writes c length : only_writes (step_writes c length).
Proof.
  unfold step_writes.
  repeat first
    [ apply hookups_only_writes
    | apply (compose_only_writes (low_fee c)); [apply low_fee_only_writes|]
    | apply (compose_only_writes (pets c)); [apply pets_only_writes|]
    | apply (compose_only_writes (reservations c)); [apply reservations_only_writes|]
    | apply (compose_only_writes (showers c)); [apply showers_only_writes|]
    | apply (compose_only_writes (drinking_water c)); [apply drinking_water_only_writes|]
    | apply (compose_only_writes (set_toilets c)); [apply set_toilets_only_writes|]
    | apply (compose_only_writes (set_length length)); [apply set_length_only_writes|]
    | apply (compose_only_writes (sanitary_dump c)); [apply sanitary_dump_only_writes|] ].
Qed.

(** A step that returns leaves, at every key, what the code assigns to it,
    and the former binding where the code assigns nothing. *)
Lemma amenity_step_lookup d c d' key :
  amenity_step d c = Ok d' ->
  d' !! key = match assigned c key with
              | Some v => Some v
              | None => d !! key
              end.
Proof.
  unfold assigned. rewrite !amenity_step_eq.
  destruct (Py.contains "ft" c); [destruct (rv_length c) as [n|]|];
    intros [= <-]; rewrite (step_writes_only_writes _ _ d);
    (destruct (step_writes c _ ∅ !! key) eqn:E;
       [by apply lookup_union_Some_l|by apply lookup_union_r]).
Qed.

Lemma returns_returned {A : Type} (dflt : A) (r : result A) :
  returns r = true -> r = Ok (returned dflt r).
Proof. by destruct r. Qed.

Lemma for_each_app {A S : Type} (l1 l2 : list A) (body : S -> A -> result S) st :
  Py.for_each (l1 ++ l2) body st
  = st' ← Py.for_each l1 body st; Py.for_each l2 body st'.
Proof.
  revert st. induction l1 as [|x l1 IH]; intros st; [done|].
  cbn [app Py.for_each]. destruct (body st x); cbn [mbind result_bind]; [apply IH|done].
Qed.

(** Codes that assign nothing to [key] leave its binding as it was. *)
Lemma for_each_unassigned key post d d' :
  Forall (fun c => assigned c key = None) post ->
  Py.for_each post amenity_step d = Ok d' ->
  d' !! key = d !! key.
Proof.
  intros Hpost. revert d. induction Hpost as [|c post Hc Hpost IH]; intros d.
  - by intros [= ->].
  - cbn [Py.for_each]. destruct (amenity_step d c) as [d1|] eqn:Hstep; [|done].
    cbn [mbind result_bind]. intros Hrest. rewrite (IH _ Hrest).
    by rewrite (amenity_step_lookup _ _ _ key Hstep), Hc.
Qed.

Lemma for_each_last_assigned key v pre c post d d' :
  assigned c key = Some v ->
  Forall (fun c' => assigned c' key = None) post ->
  Py.for_each (pre ++ c :: post) amenity_step d = Ok d' ->
  d' !! key = Some v.
Proof.
  intros Hc Hpost. rewrite for_each_app.
  destruct (Py.for_each pre amenity_step d) as [d1|]; [|done].
  cbn [mbind result_bind Py.for_each].
  destruct (amenity_step d1 c) as [d2|] eqn:Hstep; [|done].
  cbn [mbind result_bind]. intros Hrest.
  rewrite (for_each_unassigned key post d2 d' Hpost Hrest).
  by rewrite (amenity_step_lookup _ _ _ key Hstep), Hc.
Qed.



(** The other order of the two codes. *)
Example amenities_nw_dw :
  exists d, process_campsites_amenities (Some "NW DW") = Ok d
            /\ d !! "has_drinking_water" = Some (PBool true).
Proof.
  exists (returned ∅ (process_campsites_amenities (Some "NW DW"))).
  split; [apply returns_returned|]; vm_compute; reflexivity.
Qed.

(** *** What a step leaves alone *)

Ltac frame R :=
  unfold R; repeat case_decide; rewrite ?lookup_insert_ne by done; done.

Lemma hookups_frame c d key :
  "has_electric_hookup" ≠ key -> "has_water_hookup" ≠ key ->
  "has_sewer_hookup" ≠ key -> "has_rv_hookup" ≠ key ->
  hookups c d !! key = d !! key.
Proof. intros. cbv zeta. frame hookups. Qed.

Lemma sanitary_dump_frame c d key :
  "has_sanitary_dump" ≠ key -> sanitary_dump c d !! key = d !! key.
Proof. intros. frame sanitary_dump. Qed.

Lemma set_length_frame length d key :
  "max_rv_length" ≠ key -> set_length length d !! key = d !! key.
Proof. intros. destruct length; cbn [set_length]; by rewrite ?lookup_insert_ne. Qed.

Lemma set_toilets_frame c d key :
  "has_toilets" ≠ key -> "toilet_type" ≠ key -> set_toilets c d !! key = d !! key.
Proof.
  intros. unfold set_toilets. repeat case_decide; try destruct (Py.getitem _ _);
    by rewrite ?lookup_insert_ne.
Qed.

Lemma drinking_water_frame c d key :
  "has_drinking_water" ≠ key -> drinking_water c d !! key = d !! key.
Proof. intros. frame drinking_water. Qed.

Lemma showers_frame c d key :
  "has_showers" ≠ key -> showers c d !! key = d !! key.
Proof. intros. frame showers. Qed.

Lemma reservations_frame c d key :
  "accepts_reservations" ≠ key -> reservations c d !! key = d !! key.
Proof. intros. frame reservations. Qed.

Lemma pets_frame c d key :
  "accepts_pets" ≠ key -> pets c d !! key = d !! key.
Proof. intros. frame pets. Qed.

Lemma low_fee_frame c d key :
  "low_no_fee" ≠ key -> low_fee c d !! key = d !! key.
Proof. intros. frame low_fee. Qed.

Lemma step_writes_dump c length d :
  step_writes c length d !! "has_sanitary_dump"
  = if decide (c ∈ ["DP"; "NP"])
    then Some (PBool (bool_decide (c = "DP")))
    else d !! "has_sanitary_dump".
Proof.
  unfold step_writes.
  rewrite low_fee_frame, pets_frame, reservations_frame, showers_frame,
    drinking_water_frame, set_toilets_frame, set_length_frame by done.
  unfold sanitary_dump. case_decide; [apply lookup_insert_eq|].
  by rewrite hookups_frame.
Qed.

Lemma step_writes_pets c length d :
  step_writes c length d !! "accepts_pets"
  = if decide (c ∈ ["PA"; "NP"])
    then Some (PBool (bool_decide (c = "PA")))
    else d !! "accepts_pets".
Proof.
  unfold step_writes. rewrite low_fee_frame by done.
  unfold pets. case_decide; [apply lookup_insert_eq|].
  by rewrite reservations_frame, showers_frame, drinking_water_frame,
    set_toilets_frame, set_length_frame, sanitary_dump_frame, hookups_frame.
Qed.

Lemma step_writes_length c length d :
  step_writes c length d !! "max_rv_length"
  = match length with
    | Some n => Some (PInt n)
    | None => d !! "max_rv_length"
    end.
Proof.
  unfold step_writes.
  rewrite low_fee_frame, pets_frame, reservations_frame, showers_frame,
    drinking_water_frame, set_toilets_frame by done.
  destruct length; cbn [set_length]; [apply lookup_insert_eq|].
  by rewrite sanitary_dump_frame, hookups_frame.
Qed.

Lemma amenity_step_writes d c d' :
  amenity_step d c = Ok d' -> exists length, d' = step_writes c length d.
Proof.
  rewrite amenity_step_eq.
  destruct (Py.contains "ft" c); [destruct (rv_length c) as [n|]|];
    intros [= <-]; by eexists.
Qed.

(** The code "NP" alone: both rules fire. *)
Lemma amenity_step_np d :
  amenity_step d "NP"
  = Ok (<["accepts_pets" := PBool false]> (<["has_sanitary_dump" := PBool false]> d)).
Proof.
  rewrite amenity_step_eq. change (Py.contains "ft" "NP") with false. cbv iota.
  rewrite (step_writes_only_writes "NP" None d).
  change (step_writes "NP" None ∅)
    with (<["accepts_pets" := PBool false]>
            (<["has_sanitary_dump" := PBool false]> (∅ : gmap string pyval))).
  by rewrite <-!insert_union_l, (left_id_L ∅ (∪)).
Qed.

(** A binding to [False] stays through the codes [post] as long as the one
    code [good] that would set it to [True] is not among them. *)
Lemma for_each_stays_false key good other post d d' :
  (forall c length d,
     step_writes c length d !! key
     = if decide (c ∈ [good; other])
       then Some (PBool (bool_decide (c = good)))
       else d !! key) ->
  good ∉ post ->
  d !! key = Some (PBool false) ->
  Py.for_each post amenity_step d = Ok d' ->
  d' !! key = Some (PBool false).
Proof.
  intros Hkey. revert d. induction post as [|c post IH]; intros d Hpost Hd.
  - by intros [= <-].
  - cbn [Py.for_each]. destruct (amenity_step d c) as [d1|] eqn:Hstep; [|done].
    cbn [mbind result_bind]. apply not_elem_of_cons in Hpost as [Hc Hpost].
    apply IH; [done|].
    apply amenity_step_writes in Hstep as [length ->]. rewrite Hkey.
    case_decide; [|done]. by rewrite bool_decide_eq_false_2.
Qed.

(** C3, as the code has it. The code "NP" matches the sanitary dump rule
    and the pets rule: the step that processes it sets [has_sanitary_dump]
    and [accepts_pets] to [False], both, whatever the record held.  In the
    record returned for an input with the code "NP", [has_sanitary_dump] is
    [False] when no later code is "DP" and [accepts_pets] is [False] when no
    later code is "PA"; the input "NP" returns both [False]. *)
Theorem np_sets_dump_and_pets :
  (forall d,
     amenity_step d "NP"
     = Ok (<["accepts_pets" := PBool false]>
             (<["has_sanitary_dump" := PBool false]> d)))
  /\ (forall s pre post d,
        amenity_codes s = pre ++ "NP" :: post ->
        process_campsites_amenities (Some s) = Ok d ->
        ("DP" ∉ post -> d !! "has_sanitary_dump" = Some (PBool false))
        /\ ("PA" ∉ post -> d !! "accepts_pets" = Some (PBool false)))
  /\ (exists d,
        process_campsites_amenities (Some "NP") = Ok d
        /\ d !! "has_sanitary_dump" = Some (PBool false)
        /\ d !! "accepts_pets" = Some (PBool false)).
Proof.
  split; [apply amenity_step_np|]. split.
  - intros s pre post d Hcodes. cbn [process_campsites_amenities].
    rewrite Hcodes, for_each_app.
    destruct (Py.for_each pre amenity_step amenity_dict0) as [d1|]; [|done].
    cbn [mbind result_bind Py.for_each]. rewrite amenity_step_np.
    cbn [mbind result_bind]. intros Hrest. split; intros Hpost.
    + eapply (for_each_stays_false _ "DP" "NP"); [apply step_writes_dump|done| |done].
      rewrite lookup_insert_ne by done. apply lookup_insert_eq.
    + eapply (for_each_stays_false _ "PA" "NP"); [apply step_writes_pets|done| |done].
      apply lookup_insert_eq.
  - eexists. split; [|split].
    + cbn [process_campsites_amenities]. change (amenity_codes "NP") with ["NP"].
      cbn [Py.for_each]. rewrite amenity_step_np. reflexivity.
    + rewrite lookup_insert_ne by done. apply lookup_insert_eq.
    + apply lookup_insert_eq.
Qed.

Lemma np_sets_dump_and_pets_witness :
  exists d,
    process_campsites_amenities (Some "WES NP 30ft") = Ok d
    /\ d !! "has_sanitary_dump" = Some (PBool false)
    /\ d !! "accepts_pets" = Some (PBool false).
Proof.
  exists (returned ∅ (process_campsites_amenities (Some "WES NP 30ft"))).
  assert (process_campsites_amenities (Some "WES NP 30ft")
          = Ok (returned ∅ (process_campsites_amenities (Some "WES NP 30ft"))))
    as Hrun by (apply returns_returned; vm_compute; reflexivity).
  split; [exact Hrun|].
  destruct (proj1 (proj2 np_sets_dump_and_pets) "WES NP 30ft" ["WES"] ["30ft"]
              _ eq_refl Hrun) as [Hdump Hpets].
  split; [apply Hdump|apply Hpets]; intros H;
    (apply elem_of_cons in H as [H|H]; [discriminate|by apply elem_of_nil in H]).
Defined.

(** C3 as stated fails: in "NP DP PA" the later codes "DP" and "PA"
    overwrite what "NP" set, and the record returned has both fields
    [True]. *)
Lemma np_gives_both_false_fails : ~ np_gives_both_false "NP DP PA".
Proof.
  intros H.
  destruct (H (returned ∅ (process_campsites_amenities (Some "NP DP PA"))))
    as [Hdump _].
  - vm_compute. apply list_elem_of_here.
  - apply returns_returned. vm_compute. reflexivity.
  - vm_compute in Hdump. discriminate Hdump.
Qed.

(** What "NP DP PA" returns for the two fields. *)
Example np_then_dp_pa :
  returned ∅ (process_campsites_amenities (Some "NP DP PA"))
  !! "has_sanitary_dump" = Some (PBool true)
  /\ returned ∅ (process_campsites_amenities (Some "NP DP PA"))
     !! "accepts_pets" = Some (PBool true).
Proof. split; vm_compute; reflexivity. Qed.

(** *** When the decoder returns *)

Lemma int_raises p e : Py.int p = Raise e -> e = ValueError.
Proof. unfold Py.int. repeat case_match; congruence. Qed.

Lemma rv_length_raises c e : rv_length c = Raise e -> e = ValueError.
Proof.
  unfold rv_length, Py.split.
  destruct (Py.split_from "ft" 0 c) as [|p l] eqn:Hsplit;
    [by apply split_from_nonempty in Hsplit|].
  cbn [Py.item0 mbind result_bind]. apply int_raises.
Qed.

Lemma amenity_step_returns d c :
  (exists d', amenity_step d c = Ok d') <-> length_parses c.
Proof.
  unfold length_parses. rewrite amenity_step_eq.
  destruct (Py.contains "ft" c); [destruct (rv_length c) as [n|e]|].
  - split; [by eexists|by eexists].
  - split; [by intros [d' ?]|]. intros H. by destruct H as [z ?].
  - split; [done|by eexists].
Qed.

Lemma amenity_step_raises d c e : amenity_step d c = Raise e -> e = ValueError.
Proof.
  rewrite amenity_step_eq.
  destruct (Py.contains "ft" c); [destruct (rv_length c) as [n|e'] eqn:Hlen|];
    intros [=]. subst. by apply rv_length_raises in Hlen.
Qed.

Lemma for_each_returns codes d :
  (exists d', Py.for_each codes amenity_step d = Ok d')
  <-> Forall length_parses codes.
Proof.
  revert d. induction codes as [|c codes IH]; intros d.
  - split; [constructor|by eexists].
  - cbn [Py.for_each]. rewrite Forall_cons, <-(amenity_step_returns d c).
    destruct (amenity_step d c) as [d1|e]; cbn [mbind result_bind].
    + rewrite IH. split; [by split; [eexists|]|by intros [_ ?]].
    + split; [by intros [d' ?]|]. by intros [[d' ?] _].
Qed.

Lemma for_each_raises codes d e :
  Py.for_each codes amenity_step d = Raise e -> e = ValueError.
Proof.
  revert d. induction codes as [|c codes IH]; intros d; [done|].
  cbn [Py.for_each]. destruct (amenity_step d c) as [d1|e'] eqn:Hstep;
    cbn [mbind result_bind]; [apply IH|].
  intros [= <-]. by apply amenity_step_raises in Hstep.
Qed.

(** C1, as the code has it. The phone normaliser, the season range decoder
    and the country classifier return a value on every input.  The amenity
    decoder returns the initial record on an absent input; on a present
    string it returns a record exactly when every code with "ft" inside it
    has, before its first "ft", a text that [int()] accepts, and otherwise
    it raises [ValueError]. *)
Theorem decoders_return :
  (forall p, process_campsites_phone_number p = delete_non_alnum <$> p)
  /\ (forall x, exists d, process_campsites_dates x = Ok d)
  /\ (forall t, process_campsites_country t = "CAN"
                \/ process_campsites_country t = "USA")
  /\ process_campsites_amenities None = Ok amenity_dict0
  /\ (forall s,
        (exists d, process_campsites_amenities (Some s) = Ok d)
        <-> Forall length_parses (amenity_codes s))
  /\ (forall s e,
        process_campsites_amenities (Some s) = Raise e -> e = ValueError).
Proof.
  split; [|split; [|split; [|split; [|split]]]].
  - intros [s|]; [apply phone_some|done].
  - apply dates_total.
  - intros t. unfold process_campsites_country. case_decide; auto.
  - done.
  - intros s. apply for_each_returns.
  - intros s e. apply for_each_raises.
Qed.

(** C1 as stated fails: on the input "ft" the amenity decoder raises. *)
Lemma amenities_raises_on_ft :
  process_campsites_amenities (Some "ft") = Raise ValueError
  /\ ~ exists d, process_campsites_amenities (Some "ft") = Ok d.
Proof.
  assert (process_campsites_amenities (Some "ft") = Raise ValueError) as H
    by (vm_compute; reflexivity).
  split; [exact H|]. intros [d Hd]. by rewrite H in Hd.
Qed.

Lemma decoders_return_witness :
  exists d, process_campsites_amenities (Some "WES 30ft") = Ok d.
Proof.
  apply (proj2 (proj1 (proj2 (proj2 (proj2 (proj2 decoders_return))))
                  "WES 30ft")).
  change (amenity_codes "WES 30ft") with ["WES"; "30ft"].
  repeat constructor.
  - intros H. vm_compute in H. discriminate H.
  - intros _. exists 30. vm_compute. reflexivity.
Defined.

(** *** The sign of the length *)

Lemma skip_space_chars (a : ascii) p :
  a ∈ Py.chars (Py.skip_space p) -> a ∈ Py.chars p.
Proof.
  induction p as [|b p IH]; [done|]. cbn [Py.skip_space].
  destruct (Py.int_space b); [|done]. intros H%IH. by apply list_elem_of_further.
Qed.

Lemma lstrip_chars (a : ascii) p :
  a ∈ Py.chars (Py.lstrip p) -> a ∈ Py.chars p.
Proof.
  induction p as [|b p IH]; [done|]. cbn [Py.lstrip].
  destruct (Py.isspace b); [|done]. intros H%IH. by apply list_elem_of_further.
Qed.

Lemma rstrip_chars (a : ascii) p :
  a ∈ Py.chars (Py.rstrip p) -> a ∈ Py.chars p.
Proof.
  induction p as [|b p IH]; [done|]. cbn [Py.rstrip].
  destruct (Py.rstrip p) as [|b' r].
  - destruct (Py.isspace b); [by intros ?%elem_of_nil|].
    intros [->|H]%elem_of_cons; [apply list_elem_of_here|by apply elem_of_nil in H].
  - intros [->|H]%elem_of_cons; [apply list_elem_of_here|].
    apply list_elem_of_further, IH, H.
Qed.

Lemma split_from_chars sep k p t (a : ascii) :
  t ∈ Py.split_from sep k p -> a ∈ Py.chars t -> a ∈ Py.chars p.
Proof.
  revert k t. induction p as [|b p IH]; intros k t.
  - cbn [Py.split_from]. by intros ->%list_elem_of_singleton.
  - cbn [Py.split_from]. destruct k as [|k].
    + destruct (String.prefix sep _).
      * intros [->|Ht]%elem_of_cons Ha; [by apply elem_of_nil in Ha|].
        apply list_elem_of_further. by eapply IH.
      * unfold Py.push_front.
        destruct (Py.split_from sep 0 p) as [|h l] eqn:Hsplit;
          [by apply split_from_nonempty in Hsplit|].
        intros [->|Ht]%elem_of_cons Ha.
        -- apply elem_of_cons in Ha as [->|Ha]; [apply list_elem_of_here|].
           apply list_elem_of_further, (IH 0%nat h); [|done].
           rewrite Hsplit. apply list_elem_of_here.
        -- apply list_elem_of_further, (IH 0%nat t); [|done].
           rewrite Hsplit. by apply list_elem_of_further.
    + intros Ht Ha. apply list_elem_of_further. by eapply IH.
Qed.

Lemma digit_value_nonneg b v : Py.digit_value b = Some v -> 0 <= v.
Proof.
  unfold Py.digit_value, Py.in_range. case_match eqn:E; [|done].
  intros [= <-]. apply andb_prop in E as [E _]. apply N.leb_le in E. lia.
Qed.

Lemma int_digits_nonneg acc digits prev p v n rest :
  Py.int_digits acc digits prev p = Some (v, n, rest) -> 0 <= acc -> 0 <= v.
Proof.
  revert acc digits prev. induction p as [|b p IH]; intros acc digits prev.
  - cbn. repeat case_match; try done. by intros [= <- _ _].
  - cbn [Py.int_digits]. destruct (Py.digit_value b) as [w|] eqn:Hw.
    + intros Hrec Hacc. apply (IH _ _ _ Hrec). apply digit_value_nonneg in Hw. lia.
    + repeat case_match; try done;
        try (by intros [= <- _ _]); intros Hrec Hacc; by apply (IH _ _ _ Hrec).
Qed.

(** [int()] answers a negative number only for a text with a minus sign. *)
Lemma int_negative p z : Py.int p = Ok z -> z < 0 -> "-"%char ∈ Py.chars p.
Proof.
  unfold Py.int. intros Hint Hz. apply skip_space_chars.
  destruct (Py.skip_space p) as [|b r].
  - destruct (Py.int_digits 0 0 None "") as [[[v n] rest]|] eqn:Hd; [|done].
    apply int_digits_nonneg in Hd; [|done].
    repeat case_match; try done. injection Hint as <-. lia.
  - destruct (Py.code b =? 43)%N eqn:Hplus.
    + destruct (Py.int_digits 0 0 None r) as [[[v n] rest]|] eqn:Hd; [|done].
      apply int_digits_nonneg in Hd; [|done].
      repeat case_match; try done. injection Hint as <-. lia.
    + destruct (Py.code b =? 45)%N eqn:Hminus.
      * apply N.eqb_eq in Hminus. unfold Py.code in Hminus.
        rewrite <-(ascii_N_embedding b), Hminus. apply list_elem_of_here.
      * destruct (Py.int_digits 0 0 None (String b r)) as [[[v n] rest]|] eqn:Hd;
          [|done].
        apply int_digits_nonneg in Hd; [|done].
        repeat case_match; try done. injection Hint as <-. lia.
Qed.

Lemma rv_length_negative c z :
  rv_length c = Ok z -> z < 0 -> "-"%char ∈ Py.chars c.
Proof.
  unfold rv_length, Py.split.
  destruct (Py.split_from "ft" 0 c) as [|p l] eqn:Hsplit;
    [by apply split_from_nonempty in Hsplit|].
  cbn [Py.item0 mbind result_bind]. intros Hint Hz.
  apply (split_from_chars "ft" 0 c p); [rewrite Hsplit; apply list_elem_of_here|].
  by eapply int_negative.
Qed.

Lemma amenity_codes_chars s c (a : ascii) :
  c ∈ amenity_codes s -> a ∈ Py.chars c -> a ∈ Py.chars s.
Proof.
  unfold amenity_codes, Py.split, Py.strip. intros Hc Ha.
  by apply lstrip_chars, rstrip_chars, (split_from_chars " " 0 _ c).
Qed.

(** Through the loop, [max_rv_length] is [None] or an integer, which is not
    negative when [sound], a condition under which the codes give no
    negative length, holds. *)
Lemma for_each_length (sound : Prop) codes d d' :
  (forall c z, c ∈ codes -> rv_length c = Ok z -> sound -> 0 <= z) ->
  d !! "max_rv_length" = Some PNone
  \/ (exists z, d !! "max_rv_length" = Some (PInt z) /\ (sound -> 0 <= z)) ->
  Py.for_each codes amenity_step d = Ok d' ->
  d' !! "max_rv_length" = Some PNone
  \/ (exists z, d' !! "max_rv_length" = Some (PInt z) /\ (sound -> 0 <= z)).
Proof.
  revert d. induction codes as [|c codes IH]; intros d Hcodes Hd.
  - by intros [= <-].
  - cbn [Py.for_each]. destruct (amenity_step d c) as [d1|] eqn:Hstep; [|done].
    cbn [mbind result_bind]. apply IH.
    { intros c' z Hc'. apply Hcodes. by apply list_elem_of_further. }
    rewrite amenity_step_eq in Hstep.
    destruct (Py.contains "ft" c); [destruct (rv_length c) as [n|] eqn:Hlen|];
      try done; injection Hstep as <-; rewrite step_writes_length; [|done].
    right. exists n. split; [done|]. apply (Hcodes c n); [apply list_elem_of_here|done].
Qed.

(** C7, as the code has it. In a record the amenity decoder returns,
    [max_rv_length] is absent or an integer; the integer is not negative
    when the input has no minus sign in it. *)
Theorem max_rv_length_integer s d :
  process_campsites_amenities (Some s) = Ok d ->
  d !! "max_rv_length" = Some PNone
  \/ (exists z, d !! "max_rv_length" = Some (PInt z)
                /\ ("-"%char ∉ Py.chars s -> 0 <= z)).
Proof.
  cbn [process_campsites_amenities]. apply for_each_length; [|by left].
  intros c z Hc Hlen Hs. destruct (decide (0 <= z)) as [|Hneg]; [done|].
  exfalso. apply Hs, (amenity_codes_chars s c); [done|].
  apply (rv_length_negative c z); [done|lia].
Qed.

Lemma max_rv_length_integer_witness :
  returned ∅ (process_campsites_amenities (Some "WES 30ft")) !! "max_rv_length"
  = Some PNone
  \/ (exists z,
        returned ∅ (process_campsites_amenities (Some "WES 30ft")) !! "max_rv_length"
        = Some (PInt z)
        /\ ("-"%char ∉ Py.chars "WES 30ft" -> 0 <= z)).
Proof.
  apply (max_rv_length_integer "WES 30ft").
  apply returns_returned. vm_compute. reflexivity.
Defined.

(** C7 as stated fails: the input "-5ft" gives the length -5. *)
Lemma max_rv_length_negative :
  exists d,
    process_campsites_amenities (Some "-5ft") = Ok d
    /\ d !! "max_rv_length" = Some (PInt (-5))
    /\ ~ 0 <= -5.
Proof.
  exists (returned ∅ (process_campsites_amenities (Some "-5ft"))).
  split; [apply returns_returned; vm_compute; reflexivity|].
  split; [vm_compute; reflexivity|lia].
Qed.

End amenities.

(** ** More on the season range decoder *)

Section dates_more.

Implicit Types (s t : string) (pre rest : list string).

Lemma dates_map_range :
  Forall (fun e => 1 <= e.2 <= 12) dates_map.
Proof. repeat constructor; cbn; lia. Qed.

Lemma getitem_month_value t n :
  Py.getitem dates_map t = Ok n -> 1 <= n <= 12.
Proof.
  intros Hn. destruct (is_month t) eqn:Ht.
  - destruct (is_month_getitem _ Ht) as (n' & Hn' & Hin).
    rewrite Hn in Hn'. injection Hn' as <-.
    by apply (proj1 (Forall_forall _ _) dates_map_range (t, n)).
  - by rewrite (not_month_getitem _ Ht) in Hn.
Qed.

Lemma contained_months_range t n : n ∈ contained_months t -> 1 <= n <= 12.
Proof.
  unfold contained_months. intros ([m k] & -> & Hin)%list_elem_of_fmap.
  apply list_elem_of_In, filter_In in Hin as [Hin _].
  by apply (proj1 (Forall_forall _ _) dates_map_range (m, k)), list_elem_of_In.
Qed.

Lemma dates_record_open o c n :
  <["month_open" := PInt n]> (dates_record o c) = dates_record (PInt n) c.
Proof.
  unfold dates_record. rewrite insert_insert_ne by done.
  by rewrite insert_insert_eq.
Qed.

Lemma dates_record_close o c n :
  <["month_close" := PInt n]> (dates_record o c) = dates_record o (PInt n).
Proof. unfold dates_record. by rewrite insert_insert_eq. Qed.

(** The record returned, in one form for every input. *)
Lemma dates_result_form (x : option string) :
  exists o c,
    process_campsites_dates x = Ok (dates_record o c)
    /\ month_value o /\ month_value c
    /\ (o = PNone -> c = PNone).
Proof.
  assert (month_value PNone) as Hnone by (by left).
  assert (forall n, 1 <= n <= 12 -> month_value (PInt n)) as Hint
    by (intros n Hn; right; by exists n).
  destruct x as [s|]; [|by exists PNone, PNone].
  destruct (decide (s = "all year")) as [->|Hs].
  { exists (PInt 1), (PInt 12). split; [done|].
    split; [apply Hint; lia|]. split; [apply Hint; lia|done]. }
  rewrite dates_unfold by done.
  destruct (month_tokens s) as [|y arr] eqn:Ht; [by apply month_tokens_nonempty in Ht|].
  destruct (skip_to_month_split y arr) as (pre & cur & rest & -> & _ & _ & Hcur).
  rewrite set_month_open_eq. cbn [mbind result_bind].
  change dates_dict0 with (dates_record PNone PNone).
  destruct (Py.getitem dates_map cur) as [n|] eqn:Hn.
  - apply getitem_month_value in Hn. rewrite dates_record_open.
    destruct rest as [|z rest'].
    + exists (PInt n), PNone. auto.
    + rewrite set_month_close_eq.
      destruct (last _) as [k|] eqn:Hk.
      * rewrite dates_record_close. exists (PInt n), (PInt k).
        apply last_Some_elem_of, contained_months_range in Hk.
        repeat split; auto; discriminate.
      * exists (PInt n), PNone. auto.
  - destruct Hcur as [Hcur| ->]; [|by exists PNone, PNone].
    destruct (is_month_getitem _ Hcur) as (n & Hn' & _). by rewrite Hn in Hn'.
Qed.

(** X1. On every input the season range decoder returns a dict with the two
    keys [month_open] and [month_close] and no other, each bound to [None]
    or to an integer from 1 to 12. *)
Theorem dates_months_in_range (x : option string) :
  exists d,
    process_campsites_dates x = Ok d
    /\ (forall key, is_Some (d !! key)
                    <-> key = "month_open" \/ key = "month_close")
    /\ (forall key v, d !! key = Some v ->
                      v = PNone \/ exists n, v = PInt n /\ 1 <= n <= 12).
Proof.
  destruct (dates_result_form x) as (o & c & -> & Ho & Hc & _).
  eexists. split; [done|]. unfold dates_record. split.
  - intros key. rewrite !lookup_insert_is_Some, lookup_empty.
    split.
    + intros [?|[_ [?|[_ H]]]]; auto. by destruct H.
    + intros [->| ->]; [right; split; [done|by left]|by left].
  - intros key v. rewrite !lookup_insert. repeat case_decide; try done;
      by intros [= <-].
Qed.

(** X2. A close month is never returned without an open month: when
    [month_open] is [None] in the result, so is [month_close]. *)
Theorem dates_close_needs_open (x : option string) d :
  process_campsites_dates x = Ok d ->
  d !! "month_open" = Some PNone ->
  d !! "month_close" = Some PNone.
Proof.
  destruct (dates_result_form x) as (o & c & -> & _ & _ & Hoc).
  intros [= <-]. unfold dates_record.
  rewrite lookup_insert_ne, lookup_insert_eq by done. intros [= ->].
  rewrite lookup_insert_eq. by rewrite Hoc.
Qed.

Lemma dates_close_needs_open_witness :
  returned ∅ (process_campsites_dates (Some "open sept"))
  !! "month_close" = Some PNone.
Proof.
  apply (dates_close_needs_open (Some "open sept")).
  - apply returns_returned. vm_compute. reflexivity.
  - vm_compute. reflexivity.
Defined.

Lemma contained_months_exact :
  Forall (fun e => contained_months e.1 = [e.2]) dates_map.
Proof. repeat constructor. Qed.

Lemma dates_map_getitem m n :
  (m, n) ∈ dates_map -> Py.getitem dates_map m = Ok n /\ is_month m = true
                        /\ contained_months m = [n].
Proof.
  intros Hin. split; [|split].
  - by apply (proj1 (Forall_forall _ _) getitem_dates_map (m, n)).
  - apply bool_decide_eq_true_2, list_elem_of_fmap. by exists (m, n).
  - by apply (proj1 (Forall_forall _ _) contained_months_exact (m, n)).
Qed.

(** X3. When two tokens of the description are exactly month abbreviations,
    the first of them gives [month_open] and the next one [month_close],
    whatever other tokens stand before, between and after them. *)
Theorem dates_two_months s pre m1 mid m2 post n1 n2 :
  month_tokens s = pre ++ m1 :: mid ++ m2 :: post ->
  Forall (fun t => is_month t = false) pre ->
  Forall (fun t => is_month t = false) mid ->
  (m1, n1) ∈ dates_map ->
  (m2, n2) ∈ dates_map ->
  process_campsites_dates (Some s) = Ok (dates_record (PInt n1) (PInt n2)).
Proof.
  intros Heq Hpre Hmid (Hn1 & _ & _)%dates_map_getitem
    (_ & Hm2 & Hc2)%dates_map_getitem.
  rewrite (dates_open_found s pre m1 n1 (mid ++ m2 :: post)) by done.
  destruct (mid ++ m2 :: post) as [|y arr] eqn:Hrest; [by destruct mid|].
  rewrite (skip_to_month_stops mid m2 post y arr) by auto.
  rewrite set_month_close_eq. cbn [fst]. rewrite Hc2. cbn [last].
  change dates_dict0 with (dates_record PNone PNone).
  by rewrite dates_record_open, dates_record_close.
Qed.

Lemma dates_two_months_witness :
  process_campsites_dates (Some "open apr-early oct weather permitting")
  = Ok (dates_record (PInt 4) (PInt 10)).
Proof.
  apply (dates_two_months _ ["open"] "apr" ["early"] "oct"
           ["weather"; "permitting"]).
  - reflexivity.
  - repeat constructor.
  - repeat constructor.
  - vm_compute. do 3 apply list_elem_of_further. apply list_elem_of_here.
  - vm_compute. do 9 apply list_elem_of_further. apply list_elem_of_here.
Defined.

(** X4. When the first token that is exactly a month abbreviation is the
    last token of the description, [month_open] is that month and
    [month_close] stays [None]. *)
Theorem dates_open_month_last s pre m n :
  month_tokens s = pre ++ [m] ->
  Forall (fun t => is_month t = false) pre ->
  (m, n) ∈ dates_map ->
  process_campsites_dates (Some s) = Ok (dates_record (PInt n) PNone).
Proof.
  intros Heq Hpre (Hn & _ & _)%dates_map_getitem.
  rewrite (dates_open_found s pre m n []) by done.
  change dates_dict0 with (dates_record PNone PNone).
  by rewrite dates_record_open.
Qed.

Lemma dates_open_month_last_witness :
  process_campsites_dates (Some "from mid-jun")
  = Ok (dates_record (PInt 6) PNone).
Proof.
  apply (dates_open_month_last _ ["from"; "mid"] "jun").
  - reflexivity.
  - repeat constructor.
  - vm_compute. do 5 apply list_elem_of_further. apply list_elem_of_here.
Defined.

Lemma replace_dash_cons (c : ascii) s :
  Py.replace_from "-" " " 0 (String c s)
  = String (if decide (c = "-"%char) then " "%char else c)
      (Py.replace_from "-" " " 0 s).
Proof.
  cbn [Py.replace_from String.prefix]. destruct (ascii_dec "-" c) as [<-|Hc].
  - rewrite decide_True by done. by destruct s.
  - rewrite decide_False by done. done.
Qed.

Lemma replace_dash_twice s :
  Py.replace "-" " " (Py.replace "-" " " s) = Py.replace "-" " " s.
Proof.
  unfold Py.replace. induction s as [|c s IH]; [done|].
  rewrite replace_dash_cons, replace_dash_cons, IH. f_equal.
  by repeat case_decide.
Qed.

(** X5. A dash counts as a space: replacing the dashes of the description by
    spaces beforehand does not change the result, as long as neither text is
    the literal "all year". *)
Theorem dates_dash_as_space s :
  s ≠ "all year" ->
  Py.replace "-" " " s ≠ "all year" ->
  process_campsites_dates (Some (Py.replace "-" " " s))
  = process_campsites_dates (Some s).
Proof.
  intros Hs Hr. rewrite !dates_unfold by done.
  unfold month_tokens. by rewrite replace_dash_twice.
Qed.

Lemma dates_dash_as_space_witness :
  process_campsites_dates (Some (Py.replace "-" " " "mid may-late sep"))
  = process_campsites_dates (Some "mid may-late sep").
Proof.
  apply (dates_dash_as_space "mid may-late sep").
  - discriminate.
  - vm_compute. discriminate.
Defined.

(** The literal "all year" is compared before the dashes are replaced:
    "all-year" is not an all-year season. *)
Example dates_all_dash_year :
  process_campsites_dates (Some "all-year") = Ok (dates_record PNone PNone)
  /\ process_campsites_dates (Some (Py.replace "-" " " "all-year"))
     = Ok (dates_record (PInt 1) (PInt 12)).
Proof.
  split.
  - apply dates_open_missing; [discriminate|]. repeat constructor.
  - reflexivity.
Qed.

End dates_more.

(** ** More on the phone normaliser and the country classifier *)

Section phone_country_more.

Implicit Types (s a b : string) (l : list ascii).

Lemma chars_app a b : Py.chars (a +:+ b) = Py.chars a ++ Py.chars b.
Proof.
  induction a as [|c a IH]; [done|].
  change (String c a +:+ b) with (String c (a +:+ b)).
  cbn [Py.chars String.list_ascii_of_string app]. f_equal. apply IH.
Qed.

Lemma of_chars_app l1 l2 :
  Py.of_chars (l1 ++ l2) = Py.of_chars l1 +:+ Py.of_chars l2.
Proof.
  induction l1 as [|c l1 IH]; [done|].
  cbn [app Py.of_chars String.string_of_list_ascii].
  change (String c ?x +:+ ?y) with (String c (x +:+ y)). f_equal. apply IH.
Qed.

Lemma of_chars_chars s : Py.of_chars (Py.chars s) = s.
Proof. apply String.string_of_list_ascii_of_string. Qed.

(** X6. Normalising a concatenation is concatenating the normalised parts:
    a phone number can be cleaned piece by piece. *)
Theorem phone_number_app a b a' b' :
  process_campsites_phone_number (Some a) = Some a' ->
  process_campsites_phone_number (Some b) = Some b' ->
  process_campsites_phone_number (Some (a +:+ b)) = Some (a' +:+ b').
Proof.
  rewrite !phone_some. intros [= <-] [= <-]. f_equal.
  unfold delete_non_alnum. by rewrite chars_app, List.filter_app, of_chars_app.
Qed.

Lemma phone_number_app_witness :
  process_campsites_phone_number (Some ("(555) " +:+ "123-4567"))
  = Some ("555" +:+ "1234567").
Proof.
  apply (phone_number_app "(555) " "123-4567"); reflexivity.
Defined.

(** X7. The phone normaliser returns its input unchanged exactly when every
    character of the input is in [A-Za-z0-9]. *)
Theorem phone_number_unchanged_iff s :
  process_campsites_phone_number (Some s) = Some s
  <-> forallb Py.alnum (Py.chars s) = true.
Proof.
  rewrite phone_some. unfold delete_non_alnum. split.
  - intros [= H]. rewrite <-(of_chars_chars s) in H at 2.
    apply (f_equal Py.chars) in H. rewrite !chars_of_chars in H.
    rewrite <-H. apply List.forallb_filter.
  - intros H. by rewrite List.forallb_filter_id, of_chars_chars.
Qed.

(** X8. Only a text of exactly two upper-case letters is classified as
    Canadian: a lower-case code, a full name or an empty text is "USA". *)
Theorem country_can_two_capitals s :
  process_campsites_country s = "CAN" ->
  exists c1 c2,
    s = String c1 (String c2 "")
    /\ Py.in_range 65 90 c1 = true /\ Py.in_range 65 90 c2 = true.
Proof.
  unfold process_campsites_country. case_decide as Hs; [|done]. intros _.
  unfold canadian_provinces in Hs.
  repeat (apply elem_of_cons in Hs as [->|Hs]; [by eexists _, _|]).
  by apply elem_of_nil in Hs.
Qed.

Lemma country_can_two_capitals_witness :
  exists c1 c2,
    "QC" = String c1 (String c2 "")
    /\ Py.in_range 65 90 c1 = true /\ Py.in_range 65 90 c2 = true.
Proof. apply (country_can_two_capitals "QC"). reflexivity. Defined.

End phone_country_more.

(** ** More on the amenity decoder *)

Section amenities_more.

Implicit Types (c key : string) (d : gmap string pyval)
  (codes : list string).

(** *** Tokens that no rule matches *)

Ltac not_in_codes :=
  rewrite ?not_elem_of_cons; repeat split; first [assumption|apply not_elem_of_nil].

Lemma amenity_step_unrecognised d c :
  recognised c = false -> amenity_step d c = Ok d.
Proof.
  unfold recognised. intros [Hv Hft]%orb_false_elim.
  apply bool_decide_eq_false_1 in Hv. unfold amenity_vocabulary in Hv.
  rewrite amenity_step_eq, Hft. f_equal.
  repeat (apply not_elem_of_cons in Hv as [? Hv]).
  unfold step_writes.
  unfold low_fee. rewrite decide_False by assumption.
  unfold pets. rewrite decide_False by not_in_codes.
  unfold reservations. rewrite decide_False by not_in_codes.
  unfold showers. rewrite decide_False by not_in_codes.
  unfold drinking_water. rewrite decide_False by not_in_codes.
  unfold set_toilets. rewrite decide_False by not_in_codes.
  cbn [set_length].
  unfold sanitary_dump. rewrite decide_False by not_in_codes.
  unfold hookups. by rewrite decide_False by not_in_codes.
Qed.

Lemma for_each_recognised codes d :
  Py.for_each codes amenity_step d
  = Py.for_each (List.filter recognised codes) amenity_step d.
Proof.
  revert d. induction codes as [|c codes IH]; intros d; [done|].
  cbn [Py.for_each List.filter]. destruct (recognised c) eqn:Hc.
  - cbn [Py.for_each]. destruct (amenity_step d c); cbn [mbind result_bind]; auto.
  - rewrite amenity_step_unrecognised by done. apply IH.
Qed.

(** X9. Tokens that no rule matches, the empty tokens between doubled
    spaces among them, are skipped: two inputs with the same recognised
    tokens in the same order give the same result. *)
Theorem amenities_same_recognised s1 s2 :
  List.filter recognised (amenity_codes s1)
  = List.filter recognised (amenity_codes s2) ->
  process_campsites_amenities (Some s1) = process_campsites_amenities (Some s2).
Proof.
  intros H. cbn [process_campsites_amenities].
  by rewrite (for_each_recognised (amenity_codes s1)), H, <-for_each_recognised.
Qed.

Lemma amenities_same_recognised_witness :
  process_campsites_amenities (Some "WES  pool 30ft wifi  DP")
  = process_campsites_amenities (Some "WES 30ft DP").
Proof.
  apply (amenities_same_recognised "WES  pool 30ft wifi  DP" "WES 30ft DP").
  vm_compute. reflexivity.
Defined.

(** X10. An input without a recognised token, the empty string for one,
    returns the initial record, every field [None]. *)
Theorem amenities_nothing_recognised s :
  Forall (fun c => recognised c = false) (amenity_codes s) ->
  process_campsites_amenities (Some s) = Ok amenity_dict0.
Proof.
  intros H. cbn [process_campsites_amenities]. rewrite for_each_recognised.
  replace (List.filter recognised (amenity_codes s)) with (@nil string); [done|].
  induction H as [|c codes Hc _ IH]; [done|]. cbn [List.filter]. by rewrite Hc.
Qed.

Lemma amenities_nothing_recognised_witness :
  process_campsites_amenities (Some "  pool  Wifi dp ") = Ok amenity_dict0.
Proof.
  apply (amenities_nothing_recognised "  pool  Wifi dp ").
  vm_compute. repeat constructor.
Defined.

(** *** Properties kept by every step *)

Lemma for_each_invariant (P : gmap string pyval -> Prop) codes d d' :
  (forall c length d, P d -> P (step_writes c length d)) ->
  P d ->
  Py.for_each codes amenity_step d = Ok d' ->
  P d'.
Proof.
  intros Hstep. revert d. induction codes as [|c codes IH]; intros d Hd.
  - by intros [= <-].
  - cbn [Py.for_each]. destruct (amenity_step d c) as [d1|] eqn:Hc; [|done].
    cbn [mbind result_bind]. apply IH.
    apply amenity_step_writes in Hc as [length ->]. by apply Hstep.
Qed.

Ltac key_in :=
  repeat first [apply list_elem_of_here | apply list_elem_of_further].

Lemma insert_typed key v d :
  key ∈ all_keys -> field_value key v ->
  fields_typed d -> fields_typed (<[key := v]> d).
Proof.
  intros Hk Hv Hd key' v'. rewrite lookup_insert. case_decide as Hkey.
  - subst key'. by intros [= <-].
  - apply Hd.
Qed.

Lemma bool_field key b :
  key ≠ "max_rv_length" -> key ≠ "toilet_type" ->
  (key ≠ "low_no_fee" \/ b = true) ->
  field_value key (PBool b).
Proof.
  intros H1 H2 Hfee. unfold field_value. rewrite !decide_False by done.
  case_decide as Hkey; [|right; by exists b].
  destruct Hfee as [Hfee| ->]; [done|by right].
Qed.

Lemma none_field key : field_value key PNone.
Proof. unfold field_value. repeat case_decide; by left. Qed.

Ltac typed_tac :=
  repeat first
    [ assumption
    | apply insert_typed;
        [ by key_in
        | first [ by apply bool_field; auto
                | by (unfold field_value; cbn; auto) ]
        | ] ].

Lemma bool_rule_typed (test : Prop) `{Decision test} key b d :
  key ∈ all_keys -> field_value key (PBool b) ->
  fields_typed d ->
  fields_typed (if decide test then <[key := PBool b]> d else d).
Proof. intros. case_decide; [by apply insert_typed|done]. Qed.

Lemma step_writes_typed c length d :
  fields_typed d -> fields_typed (step_writes c length d).
Proof.
  intros Hd. unfold step_writes.
  assert (fields_typed (hookups c d)) as H1.
  { unfold hookups. cbv zeta. repeat case_decide; typed_tac. }
  assert (fields_typed (sanitary_dump c (hookups c d))) as H2.
  { unfold sanitary_dump. case_decide; typed_tac. }
  assert (fields_typed (set_length length (sanitary_dump c (hookups c d)))) as H3.
  { destruct length as [n|]; cbn [set_length]; [|done].
    apply insert_typed; [by key_in| |done]. right. by exists n. }
  assert (fields_typed
            (set_toilets c (set_length length (sanitary_dump c (hookups c d)))))
    as H4.
  { unfold set_toilets. case_decide as Hc; [|done]. case_decide; [typed_tac|].
    repeat (apply elem_of_cons in Hc as [->|Hc];
            [first
               [ done
               | cbn [Py.getitem toilet_map];
                 rewrite ?decide_True, ?decide_False by done;
                 apply insert_typed;
                   [by key_in
                   |right; unfold field_value; cbn; key_in
                   |typed_tac] ]|]).
    by apply elem_of_nil in Hc. }
  unfold low_fee, pets, reservations, showers, drinking_water.
  repeat (apply bool_rule_typed; [by key_in|by apply bool_field; auto|]).
  done.
Qed.

Lemma amenity_dict0_typed : fields_typed amenity_dict0.
Proof.
  unfold amenity_dict0.
  repeat (apply insert_typed; [by key_in|apply none_field|]).
  intros key v. by rewrite lookup_empty.
Qed.

(** X11. In a record the amenity decoder returns, every field has a value
    of its kind: [max_rv_length] is [None] or an integer, [toilet_type] is
    [None] or one of "flush", "vault", "mixed" and "pit", [low_no_fee] is
    [None] or [True], never [False], and every other field is [None] or a
    boolean. *)
Theorem amenities_fields_typed (x : option string) d key v :
  process_campsites_amenities x = Ok d ->
  d !! key = Some v ->
  field_value key v.
Proof.
  intros Hrun Hkey.
  assert (fields_typed d) as Hd; [|by apply (Hd key v)].
  destruct x as [s|]; [|injection Hrun as <-; apply amenity_dict0_typed].
  cbn [process_campsites_amenities] in Hrun.
  apply (for_each_invariant fields_typed _ _ _ step_writes_typed
           amenity_dict0_typed Hrun).
Qed.

Lemma amenities_fields_typed_witness :
  field_value "toilet_type" (PStr "vault").
Proof.
  apply (amenities_fields_typed (Some "FT NT L$ VT")
           (returned ∅ (process_campsites_amenities (Some "FT NT L$ VT")))).
  - apply returns_returned. vm_compute. reflexivity.
  - vm_compute. reflexivity.
Defined.

(** *** The keys of the record *)

Lemma step_writes_outer c length d key :
  "low_no_fee" ≠ key -> "accepts_pets" ≠ key -> "accepts_reservations" ≠ key ->
  "has_showers" ≠ key -> "has_drinking_water" ≠ key ->
  step_writes c length d !! key
  = set_toilets c (set_length length (sanitary_dump c (hookups c d))) !! key.
Proof.
  intros. unfold step_writes.
  by rewrite low_fee_frame, pets_frame, reservations_frame, showers_frame,
    drinking_water_frame.
Qed.

Lemma step_writes_rv_hookup c length d :
  step_writes c length d !! "has_rv_hookup"
  = if decide (c ∈ ["NH"; "E"; "WE"; "WES"])
    then Some (PBool (bool_decide (c ≠ "NH")))
    else d !! "has_rv_hookup".
Proof.
  rewrite step_writes_outer by done.
  rewrite set_toilets_frame, set_length_frame, sanitary_dump_frame by done.
  unfold hookups. case_decide; [|done]. cbv zeta.
  case_decide as Hnh; [by rewrite lookup_insert_eq, bool_decide_eq_true_2|].
  rewrite decide_True by done.
  rewrite lookup_insert_eq, bool_decide_eq_false_2 by (intros Hne; by apply Hne).
  done.
Qed.

Lemma for_each_rv_hookup codes d d' :
  Py.for_each codes amenity_step d = Ok d' ->
  is_Some (d' !! "has_rv_hookup")
  <-> is_Some (d !! "has_rv_hookup")
      \/ exists c, c ∈ codes /\ c ∈ ["NH"; "E"; "WE"; "WES"].
Proof.
  revert d. induction codes as [|c codes IH]; intros d.
  - intros [= <-]. split; [by left|]. intros [?|(c & Hc & _)]; [done|].
    by apply elem_of_nil in Hc.
  - cbn [Py.for_each]. destruct (amenity_step d c) as [d1|] eqn:Hc; [|done].
    cbn [mbind result_bind]. intros Hrest. rewrite (IH _ Hrest).
    apply amenity_step_writes in Hc as [length ->].
    rewrite step_writes_rv_hookup. case_decide as Hin.
    + split; [|by intros _; left]. intros _. right. exists c.
      split; [apply list_elem_of_here|done].
    + split.
      * intros [?|(c' & Hc' & Hh)]; [by left|]. right. exists c'.
        split; [by apply list_elem_of_further|done].
      * intros [?|(c' & Hc' & Hh)]; [by left|].
        apply elem_of_cons in Hc' as [->|Hc']; [done|]. right. by exists c'.
Qed.

Lemma step_writes_keeps_keys c length d key :
  is_Some (d !! key) -> is_Some (step_writes c length d !! key).
Proof.
  intros Hd. rewrite (step_writes_only_writes c length d).
  apply lookup_union_is_Some. by right.
Qed.

(** X12. A record the amenity decoder returns has the twelve keys of the
    initial record, and the key [has_rv_hookup] besides exactly when one of
    the tokens is a hookup code; it has no other key. *)
Theorem amenities_keys s d key :
  process_campsites_amenities (Some s) = Ok d ->
  is_Some (d !! key)
  <-> key ∈ default_keys
      \/ (key = "has_rv_hookup"
          /\ exists c, c ∈ amenity_codes s /\ c ∈ ["NH"; "E"; "WE"; "WES"]).
Proof.
  cbn [process_campsites_amenities]. intros Hrun.
  pose proof (for_each_rv_hookup _ _ _ Hrun) as Hrv.
  assert (is_Some (amenity_dict0 !! "has_rv_hookup") <-> False) as Hno
    by (split; [by intros [v Hv]|done]).
  rewrite Hno in Hrv. split.
  - intros [v Hv].
    destruct (for_each_invariant fields_typed _ _ _ step_writes_typed
                amenity_dict0_typed Hrun key v Hv) as [Hkey _].
    apply elem_of_cons in Hkey as [->|Hkey]; [|by left].
    right. split; [done|]. assert (is_Some (d !! "has_rv_hookup")) as Hd by eauto.
    apply Hrv in Hd as [[]|Hd]. done.
  - intros [Hkey|[-> Hex]]; [|apply Hrv; by right].
    apply (for_each_invariant (fun d0 => is_Some (d0 !! key))
             (amenity_codes s) amenity_dict0 d
             (fun c length d0 => step_writes_keeps_keys c length d0 key));
      [|exact Hrun].
    unfold default_keys in Hkey.
    repeat (apply elem_of_cons in Hkey as [->|Hkey]; [by eexists|]).
    by apply elem_of_nil in Hkey.
Qed.

Lemma amenities_keys_witness :
  is_Some (returned ∅ (process_campsites_amenities (Some "DP NH"))
           !! "has_rv_hookup")
  <-> "has_rv_hookup" ∈ default_keys
      \/ ("has_rv_hookup" = "has_rv_hookup"
          /\ exists c, c ∈ amenity_codes "DP NH" /\ c ∈ ["NH"; "E"; "WE"; "WES"]).
Proof.
  apply (amenities_keys "DP NH").
  apply returns_returned. vm_compute. reflexivity.
Defined.

(** *** Fields that go together *)

Lemma step_writes_hookup_key c length d key :
  key ∈ ["has_rv_hookup"; "has_electric_hookup"; "has_water_hookup";
         "has_sewer_hookup"] ->
  step_writes c length d !! key = hookups c d !! key.
Proof.
  intros Hkey.
  repeat (apply elem_of_cons in Hkey as [->|Hkey];
          [rewrite step_writes_outer by done;
           by rewrite set_toilets_frame, set_length_frame, sanitary_dump_frame|]).
  by apply elem_of_nil in Hkey.
Qed.

Lemma hookup_fields_step c length d :
  hookup_fields (step_writes c length d) = hookup_fields (hookups c d).
Proof.
  unfold hookup_fields. by rewrite !step_writes_hookup_key by key_in.
Qed.

Lemma hookup_fields_hookups c d :
  hookup_fields (hookups c d)
  = if decide (c ∈ ["NH"; "E"; "WE"; "WES"])
    then (Some (PBool (bool_decide (c ≠ "NH"))),
          Some (PBool (Py.contains "E" c)),
          Some (PBool (Py.contains "W" c)),
          Some (PBool (Py.contains "S" c)))
    else hookup_fields d.
Proof.
  unfold hookup_fields, hookups. case_decide; [|done]. cbv zeta.
  case_decide as Hnh.
  - rewrite bool_decide_eq_true_2 by done.
    by rewrite lookup_insert_eq, !(lookup_insert_ne _ "has_rv_hookup"),
      lookup_insert_eq, !(lookup_insert_ne _ "has_sewer_hookup"),
      lookup_insert_eq, !(lookup_insert_ne _ "has_water_hookup"),
      lookup_insert_eq by done.
  - rewrite decide_True by done.
    rewrite bool_decide_eq_false_2 by (intros Hne; by apply Hne).
    by rewrite lookup_insert_eq, !(lookup_insert_ne _ "has_rv_hookup"),
      lookup_insert_eq, !(lookup_insert_ne _ "has_sewer_hookup"),
      lookup_insert_eq, !(lookup_insert_ne _ "has_water_hookup"),
      lookup_insert_eq by done.
Qed.

(** X13. The four hookup fields of a returned record always stand in one of
    five ways: no hookup code was seen ([has_rv_hookup] missing, the three
    others [None]), or they are as "NH", "E", "WE" or "WES" sets them.  So
    sewer implies water, water implies electricity, and [has_rv_hookup] is
    [True] exactly when [has_electric_hookup] is. *)
Theorem amenities_hookups_consistent (x : option string) d :
  process_campsites_amenities x = Ok d ->
  hookup_fields d
  ∈ [ (None, Some PNone, Some PNone, Some PNone);
      (Some (PBool false), Some (PBool false), Some (PBool false),
       Some (PBool false));
      (Some (PBool true), Some (PBool true), Some (PBool false),
       Some (PBool false));
      (Some (PBool true), Some (PBool true), Some (PBool true),
       Some (PBool false));
      (Some (PBool true), Some (PBool true), Some (PBool true),
       Some (PBool true)) ].
Proof.
  intros Hrun.
  set (P := fun d0 : gmap string pyval =>
    hookup_fields d0
    ∈ [ (None, Some PNone, Some PNone, Some PNone);
        (Some (PBool false), Some (PBool false), Some (PBool false),
         Some (PBool false));
        (Some (PBool true), Some (PBool true), Some (PBool false),
         Some (PBool false));
        (Some (PBool true), Some (PBool true), Some (PBool true),
         Some (PBool false));
        (Some (PBool true), Some (PBool true), Some (PBool true),
         Some (PBool true)) ]).
  assert (P amenity_dict0) as H0 by apply list_elem_of_here.
  destruct x as [s|]; [|by injection Hrun as <-].
  cbn [process_campsites_amenities] in Hrun.
  apply (for_each_invariant P (amenity_codes s) amenity_dict0 d); [|done|done].
  intros c length d0 Hd0. unfold P.
  rewrite hookup_fields_step, hookup_fields_hookups. case_decide as Hc; [|done].
  repeat (apply elem_of_cons in Hc as [->|Hc]; [vm_compute; key_in|]).
  by apply elem_of_nil in Hc.
Qed.

Lemma amenities_hookups_consistent_witness :
  hookup_fields (returned ∅ (process_campsites_amenities (Some "WES DP WE")))
  ∈ [ (None, Some PNone, Some PNone, Some PNone);
      (Some (PBool false), Some (PBool false), Some (PBool false),
       Some (PBool false));
      (Some (PBool true), Some (PBool true), Some (PBool false),
       Some (PBool false));
      (Some (PBool true), Some (PBool true), Some (PBool true),
       Some (PBool false));
      (Some (PBool true), Some (PBool true), Some (PBool true),
       Some (PBool true)) ].
Proof.
  apply (amenities_hookups_consistent (Some "WES DP WE")).
  apply returns_returned. vm_compute. reflexivity.
Defined.

Lemma step_writes_toilet_key c length d key :
  key ∈ ["has_toilets"; "toilet_type"] ->
  step_writes c length d !! key = set_toilets c d !! key.
Proof.
  intros Hkey.
  repeat (apply elem_of_cons in Hkey as [->|Hkey];
          [rewrite step_writes_outer by done; unfold set_toilets;
           repeat case_decide; try destruct (Py.getitem _ _);
           rewrite ?lookup_insert;
           repeat case_decide; try done;
           by rewrite set_length_frame, sanitary_dump_frame, hookups_frame|]).
  by apply elem_of_nil in Hkey.
Qed.

(** X14. In a returned record [has_toilets] and [toilet_type] fit together
    one way only: with [has_toilets] left [None] the type is [None], and
    with [has_toilets] [True] the type is one of "flush", "vault", "mixed"
    and "pit".  ([has_toilets] [False] can stand beside a type left by an
    earlier code.) *)
Theorem amenities_toilets_consistent (x : option string) d :
  process_campsites_amenities x = Ok d ->
  (d !! "has_toilets" = Some PNone -> d !! "toilet_type" = Some PNone)
  /\ (d !! "has_toilets" = Some (PBool true) ->
      exists t, t ∈ ["flush"; "vault"; "mixed"; "pit"]
                /\ d !! "toilet_type" = Some (PStr t)).
Proof.
  intros Hrun.
  set (P := fun d0 : gmap string pyval =>
    (d0 !! "has_toilets" = Some PNone /\ d0 !! "toilet_type" = Some PNone)
    \/ d0 !! "has_toilets" = Some (PBool false)
    \/ (d0 !! "has_toilets" = Some (PBool true)
        /\ exists t, t ∈ ["flush"; "vault"; "mixed"; "pit"]
                     /\ d0 !! "toilet_type" = Some (PStr t))).
  assert (P d) as HP.
  { assert (P amenity_dict0) as H0 by (by left).
    destruct x as [s|]; [|by injection Hrun as <-].
    cbn [process_campsites_amenities] in Hrun.
    apply (for_each_invariant P (amenity_codes s) amenity_dict0 d); [|done|done].
    intros c length d0 Hd0. unfold P.
    rewrite !step_writes_toilet_key by key_in. unfold set_toilets.
    case_decide as Hc; [|done].
    case_decide as Hnt; [right; left; apply lookup_insert_eq|].
    right; right.
    repeat (apply elem_of_cons in Hc as [->|Hc];
            [first [done
                   |destruct (Py.getitem toilet_map _) as [t|] eqn:Ht;
                      vm_compute in Ht; [|done]; injection Ht as <-;
                    rewrite lookup_insert_ne, !lookup_insert_eq by done;
                    split; [done|eexists; split; [|done]; key_in]]|]).
    by apply elem_of_nil in Hc. }
  destruct HP as [[H1 H2]|[H1|[H1 H2]]]; split; intros H; try done;
    rewrite H1 in H; done.
Qed.

Lemma amenities_toilets_consistent_witness :
  exists t, t ∈ ["flush"; "vault"; "mixed"; "pit"]
            /\ returned ∅ (process_campsites_amenities (Some "NT FTVT"))
               !! "toilet_type" = Some (PStr t).
Proof.
  apply (amenities_toilets_consistent (Some "NT FTVT")).
  - apply returns_returned. vm_compute. reflexivity.
  - vm_compute. reflexivity.
Defined.

(** The code "NT" leaves the type an earlier code gave. *)
Example amenities_no_toilets_keeps_type :
  returned ∅ (process_campsites_amenities (Some "FT NT")) !! "has_toilets"
  = Some (PBool false)
  /\ returned ∅ (process_campsites_amenities (Some "FT NT")) !! "toilet_type"
     = Some (PStr "flush").
Proof. split; vm_compute; reflexivity. Qed.

(** *** White space around the input *)

Lemma lstrip_no_leading_space s : no_leading_space (Py.lstrip s).
Proof.
  induction s as [|c s IH]; [done|]. cbn [Py.lstrip].
  by destruct (Py.isspace c) eqn:Hc.
Qed.

Lemma lstrip_id s : no_leading_space s -> Py.lstrip s = s.
Proof. destruct s as [|c s]; [done|]. cbn. by intros ->. Qed.

Lemma rstrip_no_leading_space s :
  no_leading_space s -> no_leading_space (Py.rstrip s).
Proof.
  destruct s as [|c s]; [done|]. cbn [no_leading_space Py.rstrip]. intros Hc.
  destruct (Py.rstrip s); [by rewrite Hc|done].
Qed.

Lemma rstrip_twice s : Py.rstrip (Py.rstrip s) = Py.rstrip s.
Proof.
  induction s as [|c s IH]; [done|]. cbn [Py.rstrip].
  destruct (Py.rstrip s) as [|b r] eqn:Hr.
  - destruct (Py.isspace c) eqn:Hc; [done|]. cbn. by rewrite Hc.
  - cbn [Py.rstrip]. cbn [Py.rstrip] in IH. by rewrite IH.
Qed.

Lemma strip_twice s : Py.strip (Py.strip s) = Py.strip s.
Proof.
  unfold Py.strip.
  rewrite (lstrip_id (Py.rstrip (Py.lstrip s)))
    by apply rstrip_no_leading_space, lstrip_no_leading_space.
  apply rstrip_twice.
Qed.

(** X15. White space around the input does not count: the decoder gives
    the same result on a string and on the string stripped. *)
Theorem amenities_strip s :
  process_campsites_amenities (Some (Py.strip s))
  = process_campsites_amenities (Some s).
Proof.
  cbn [process_campsites_amenities]. unfold amenity_codes.
  by rewrite strip_twice.
Qed.

(** *** A length written in digits *)

Lemma prefix_app x b : String.prefix x (x +:+ b) = true.
Proof.
  induction x as [|c x IH]; [by destruct b|].
  change (String c x +:+ b) with (String c (x +:+ b)). cbn [String.prefix].
  by destruct (ascii_dec c c).
Qed.

Lemma contains_app a x b : Py.contains x (a +:+ x +:+ b) = true.
Proof.
  induction a as [|c a IH].
  - change ("" +:+ ?y) with y. destruct (x +:+ b) eqn:E;
      cbn [Py.contains]; rewrite <-E, prefix_app; done.
  - change (String c a +:+ ?y) with (String c (a +:+ y)).
    cbn [Py.contains]. rewrite IH. apply orb_true_r.
Qed.

Lemma digit_not_f (c : ascii) : is_digit c = true -> "f"%char ≠ c.
Proof. by intros Hc <-. Qed.

Lemma split_ft_digits ds rest :
  Forall (fun ch => is_digit ch = true) ds ->
  Py.item0 (Py.split "ft" (Py.of_chars ds +:+ "ft" +:+ rest))
  = Ok (Py.of_chars ds).
Proof.
  unfold Py.split. intros Hds.
  assert (exists l, Py.split_from "ft" 0 (Py.of_chars ds +:+ "ft" +:+ rest)
                    = Py.of_chars ds :: l) as [l ->]; [|done].
  induction Hds as [|c ds Hc Hds [l IH]].
  - cbn [Py.of_chars String.string_of_list_ascii]. change ("" +:+ ?y) with y.
    change ("ft" +:+ rest) with (String "f" (String "t" rest)).
    cbn [Py.split_from String.prefix]. destruct (ascii_dec "f" "f"); [|done].
    destruct (ascii_dec "t" "t"); [|done]. destruct rest; by eexists.
  - cbn [Py.of_chars String.string_of_list_ascii].
    change (String c ?x +:+ ?y) with (String c (x +:+ y)).
    cbn [Py.split_from String.prefix].
    destruct (ascii_dec "f" c) as [Hf|_]; [by apply digit_not_f in Hf|].
    fold (Py.of_chars ds). rewrite IH. by eexists.
Qed.

Lemma int_digits_digits ds acc n p :
  Forall (fun ch => is_digit ch = true) ds ->
  Py.is_underscore p = false ->
  Py.int_digits acc n (Some p) (Py.of_chars ds)
  = Some (fold_left (fun acc ch => 10 * acc + (Z.of_N (Py.code ch) - 48)) ds acc,
          (n + length ds)%nat, "").
Proof.
  intros Hds. revert acc n p. induction Hds as [|c ds Hc Hds IH]; intros acc n p Hp.
  - cbn. rewrite Hp. by rewrite Nat.add_0_r.
  - cbn [Py.of_chars String.string_of_list_ascii Py.int_digits].
    unfold Py.digit_value. unfold is_digit in Hc. rewrite Hc.
    fold (Py.of_chars ds). rewrite IH.
    + cbn [fold_left length]. by rewrite Nat.add_succ_r.
    + revert Hc. unfold Py.in_range, Py.is_underscore.
      destruct (Py.code c =? 95)%N eqn:E; [|done].
      apply N.eqb_eq in E. by rewrite E.
Qed.

Lemma int_decimal ds :
  ds ≠ [] ->
  Forall (fun ch => is_digit ch = true) ds ->
  (length ds <= Py.int_max_str_digits)%nat ->
  Py.int (Py.of_chars ds) = Ok (decimal ds).
Proof.
  intros Hne Hds Hlen. destruct ds as [|c ds]; [done|].
  apply Forall_cons in Hds as [Hc Hds].
  assert (Py.int_space c = false /\ (Py.code c =? 43)%N = false
          /\ (Py.code c =? 45)%N = false /\ Py.is_underscore c = false)
    as (Hsp & Hplus & Hminus & Hus).
  { revert Hc. unfold is_digit, Py.int_space, Py.is_underscore, Py.in_range.
    intros [H1 H2]%andb_prop. apply N.leb_le in H1, H2.
    repeat split; repeat (apply orb_false_intro);
      first [apply N.eqb_neq; lia | apply andb_false_iff; rewrite !N.leb_gt; lia]. }
  unfold Py.int. cbn [Py.of_chars String.string_of_list_ascii Py.skip_space].
  rewrite Hsp, Hplus, Hminus. cbn [Py.int_digits].
  unfold Py.digit_value. unfold is_digit in Hc. rewrite Hc.
  fold (Py.of_chars ds). rewrite int_digits_digits by done.
  cbn [Py.all_space]. cbn [length] in Hlen.
  destruct (Nat.ltb_spec Py.int_max_str_digits (1 + length ds)); [lia|].
  f_equal. unfold decimal. cbn [fold_left]. lia.
Qed.

Lemma rv_length_decimal ds rest :
  ds ≠ [] ->
  Forall (fun ch => is_digit ch = true) ds ->
  (length ds <= Py.int_max_str_digits)%nat ->
  rv_length (Py.of_chars ds +:+ "ft" +:+ rest) = Ok (decimal ds).
Proof.
  intros. unfold rv_length. rewrite split_ft_digits by done.
  cbn [mbind result_bind]. by apply int_decimal.
Qed.

Lemma assigned_length_decimal ds rest :
  ds ≠ [] ->
  Forall (fun ch => is_digit ch = true) ds ->
  (length ds <= Py.int_max_str_digits)%nat ->
  assigned (Py.of_chars ds +:+ "ft" +:+ rest) "max_rv_length"
  = Some (PInt (decimal ds)).
Proof.
  intros. unfold assigned.
  rewrite amenity_step_eq, contains_app, rv_length_decimal by done.
  apply step_writes_length.
Qed.

Lemma assigned_length_none c :
  Py.contains "ft" c = false -> assigned c "max_rv_length" = None.
Proof.
  intros Hc. unfold assigned. rewrite amenity_step_eq, Hc.
  by rewrite step_writes_length.
Qed.

(** X16. A token made of decimal digits, then "ft", then anything, sets
    [max_rv_length] to the number the digits write; the record returned
    holds that number when no later token has "ft" in it. *)
Theorem amenities_length_in_digits s pre ds rest post d :
  amenity_codes s = pre ++ (Py.of_chars ds +:+ "ft" +:+ rest) :: post ->
  ds ≠ [] ->
  Forall (fun ch => is_digit ch = true) ds ->
  (length ds <= Py.int_max_str_digits)%nat ->
  Forall (fun c => Py.contains "ft" c = false) post ->
  process_campsites_amenities (Some s) = Ok d ->
  d !! "max_rv_length" = Some (PInt (decimal ds)).
Proof.
  intros Hcodes Hne Hds Hlen Hpost. cbn [process_campsites_amenities].
  rewrite Hcodes. apply for_each_last_assigned.
  - by apply assigned_length_decimal.
  - eapply Forall_impl; [exact Hpost|]. apply assigned_length_none.
Qed.

Lemma amenities_length_in_digits_witness :
  returned ∅ (process_campsites_amenities (Some "WES 35ft. DP"))
  !! "max_rv_length" = Some (PInt 35).
Proof.
  apply (amenities_length_in_digits "WES 35ft. DP" ["WES"]
           ["3"%char; "5"%char] "." ["DP"]).
  - reflexivity.
  - discriminate.
  - repeat constructor.
  - vm_compute. lia.
  - repeat constructor.
  - apply returns_returned. vm_compute. reflexivity.
Defined.

End amenities_more.
